(** * Stable Diffusion sampler with Prompt-to-Prompt attention interception

    A shallow embedding of
      keras_cv/models/stable_diffusion/stable_diffusion.py
      keras_cv/models/stable_diffusion/prompt_to_prompt_utils.py

    Conventions of the embedding:
    - Python integers are [Z]; [//] is [Z.div] (both round to minus infinity).
    - Floating point tensors are tensors over [R]: the arithmetic is exact.
    - The edit windows and [t_scale] are rationals ([Q]), which makes the
      window test executable.
    - A Python exception is a value [Raise e] of the type [result].
    - Networks, the tokenizer and the layers' projections are not part of the
      two files; they are the fields of the class [Collaborators]. *)

From Stdlib Require Import ZArith QArith Reals List String Ascii Bool Lia Lra
  Sorted.
Import ListNotations.

Set Implicit Arguments.

(** ** Exceptions *)

Inductive exn : Type :=
| ValueError
| AttributeError
| IndexError
| ZeroDivisionError
| InvalidArgumentError.

Inductive result (A : Type) : Type :=
| Ok (a : A)
| Raise (e : exn).

Arguments Ok {A} a.
Arguments Raise {A} e.

Definition rbind {A B : Type} (r : result A) (k : A -> result B) : result B :=
  match r with
  | Ok a => k a
  | Raise e => Raise e
  end.

Declare Scope result_scope.
Delimit Scope result_scope with result.
Notation "'do' x <- r ; k" := (rbind r (fun x => k))
  (at level 10, x pattern, r at level 100, k at level 200) : result_scope.
Local Open Scope result_scope.

Fixpoint rmap {A B : Type} (f : A -> result B) (l : list A)
  : result (list B) :=
  match l with
  | [] => Ok []
  | x :: xs => do y <- f x; do ys <- rmap f xs; Ok (y :: ys)
  end.

(** ** Python lists *)

(** [l[i]]: a negative index counts from the end, an index out of range
    raises [IndexError]. *)
Definition py_index {A : Type} (l : list A) (i : Z) : result A :=
  let n := Z.of_nat (List.length l) in
  let j := (if i <? 0 then n + i else i)%Z in
  if (j <? 0)%Z then Raise IndexError
  else match nth_error l (Z.to_nat j) with
       | Some x => Ok x
       | None => Raise IndexError
       end.

(** [list(enumerate(l))[::-1]] *)
Definition enumerate_rev {A : Type} (l : list A) : list (nat * A) :=
  rev (combine (seq 0 (List.length l)) l).

(** ** The timestep schedule *)

Module Schedule.

(** The values [cur, cur + step, ...] below [stop], for a positive [step];
    [fuel] bounds the number of values. *)
Fixpoint range_up (fuel : nat) (cur stop step : Z) : list Z :=
  match fuel with
  | O => []
  | S fuel' =>
      if (cur <? stop)%Z then cur :: range_up fuel' (cur + step) stop step
      else []
  end.

(** The values [cur, cur + step, ...] above [stop], for a negative [step]. *)
Fixpoint range_down (fuel : nat) (cur stop step : Z) : list Z :=
  match fuel with
  | O => []
  | S fuel' =>
      if (stop <? cur)%Z then cur :: range_down fuel' (cur + step) stop step
      else []
  end.

(** [tf.range(start, limit, delta)] on integers: a zero [delta], and a
    [delta] that points away from [limit], are invalid arguments. *)
Definition tf_range (start limit delta : Z) : result (list Z) :=
  if (delta =? 0)%Z then Raise InvalidArgumentError
  else if (0 <? delta)%Z then
    if (start <=? limit)%Z
    then Ok (range_up (Z.to_nat (limit - start)) start limit delta)
    else Raise InvalidArgumentError
  else
    if (limit <=? start)%Z
    then Ok (range_down (Z.to_nat (start - limit)) start limit delta)
    else Raise InvalidArgumentError.

(** [timesteps = tf.range(1, 1000, 1000 // num_steps)]
    (generate_image l.209, prompt_to_prompt l.417, inpaint l.639). *)
Definition timesteps (num_steps : Z) : result (list Z) :=
  if (num_steps =? 0)%Z then Raise ZeroDivisionError
  else tf_range 1 1000 (1000 / num_steps).

(** The order in which a run consumes the schedule:
    [for index, timestep in list(enumerate(timesteps))[::-1]]. *)
Definition consumed (ts : list Z) : list Z :=
  map snd (enumerate_rev ts).

(** [_get_initial_alphas] (l.836-840), over the table [_ALPHAS_CUMPROD]. *)
Definition _get_initial_alphas (ALPHAS_CUMPROD : list R) (ts : list Z)
  : result (list R * list R) :=
  do alphas <- rmap (py_index ALPHAS_CUMPROD) ts;
  let alphas_prev := 1%R :: removelast alphas in
  Ok (alphas, alphas_prev).

End Schedule.

(** ** Tensors

    A tensor is its shape and its elements in row-major order, as
    TensorFlow stores it.  A tensor built by TensorFlow is [wf]. *)

Record tensor (A : Type) : Type := Tensor {
  shape : list nat;
  data : list A
}.

Definition size (sh : list nat) : nat := fold_right Nat.mul 1%nat sh.

Definition wf {A : Type} (t : tensor A) : Prop :=
  List.length (data t) = size (shape t).

(** [tf.size] *)
Definition tf_size {A : Type} (t : tensor A) : nat := size (shape t).

(** The value of [tf.Variable([])]: one axis of length zero. *)
Definition empty_tensor {A : Type} : tensor A := Tensor [0%nat] [].

(** [tf.reshape(t, sh)] for a fully specified [sh]. *)
Definition tf_reshape {A : Type} (t : tensor A) (sh : list nat)
  : result (tensor A) :=
  if (size sh =? List.length (data t))%nat then Ok (Tensor sh (data t))
  else Raise InvalidArgumentError.

(** A Python scalar combined with a tensor ([1 - t], [c * t], [t / c]). *)
Definition tmap {A B : Type} (f : A -> B) (t : tensor A) : tensor B :=
  Tensor (shape t) (map f (data t)).

(** Broadcasting, on shapes written innermost axis first: two axes are
    compatible when they are equal or one of them is 1; the shorter shape
    is padded with axes of length 1. *)
Fixpoint broadcast_rev (s1 s2 : list nat) : option (list nat) :=
  match s1, s2 with
  | [], _ => Some s2
  | _, [] => Some s1
  | a :: r1, b :: r2 =>
      if (a =? b)%nat then option_map (cons a) (broadcast_rev r1 r2)
      else if (a =? 1)%nat then option_map (cons b) (broadcast_rev r1 r2)
      else if (b =? 1)%nat then option_map (cons a) (broadcast_rev r1 r2)
      else None
  end.

Definition broadcast_shape (s1 s2 : list nat) : option (list nat) :=
  option_map (@rev nat) (broadcast_rev (rev s1) (rev s2)).

(** The row-major position, in an operand of shape [s], of the element that
    is paired with position [i] of the broadcast result of shape [out] (both
    shapes innermost axis first): along an axis of length 1 the operand
    stays at coordinate 0. *)
Fixpoint operand_index (out s : list nat) (i : nat) : nat :=
  match out, s with
  | d :: out', e :: s' =>
      ((if (e =? 1)%nat then 0 else i mod d)
       + e * operand_index out' s' (i / d))%nat
  | _, _ => 0%nat
  end.

(** An elementwise binary operation of TensorFlow ([a * b], [a + b],
    [a - b]) on two float tensors. *)
Definition tmap2 (f : R -> R -> R) (a b : tensor R) : result (tensor R) :=
  match broadcast_shape (shape a) (shape b) with
  | None => Raise InvalidArgumentError
  | Some out =>
      let at_a i :=
        nth (operand_index (rev out) (rev (shape a)) i) (data a) 0%R in
      let at_b i :=
        nth (operand_index (rev out) (rev (shape b)) i) (data b) 0%R in
      Ok (Tensor out (map (fun i => f (at_a i) (at_b i)) (seq 0 (size out))))
  end.

Definition tadd : tensor R -> tensor R -> result (tensor R) := tmap2 Rplus.
Definition tsub : tensor R -> tensor R -> result (tensor R) := tmap2 Rminus.
Definition tmul : tensor R -> tensor R -> result (tensor R) := tmap2 Rmult.

(** [tf.gather(params, indices, axis=-1)]: every row of [params] along its
    last axis is replaced by its entries at [indices]; an index outside the
    axis is an invalid argument. *)
Definition tf_gather_last (params : tensor R) (indices : tensor Z)
  : result (tensor R) :=
  match rev (shape params) with
  | [] => Raise InvalidArgumentError
  | c :: lead =>
      if forallb (fun i => (0 <=? i)%Z && (i <? Z.of_nat c)%Z) (data indices)
      then
        Ok (Tensor (rev lead ++ shape indices)
              (flat_map
                 (fun r => map (fun i => nth (r * c + Z.to_nat i) (data params) 0%R)
                               (data indices))
                 (seq 0 (size lead))))
      else Raise InvalidArgumentError
  end.

(** ** Strings *)

(** Python's [p in s] on strings. *)
Fixpoint contains (p s : string) : bool :=
  String.prefix p s ||
  match s with
  | EmptyString => false
  | String _ s' => contains p s'
  end.

(** Python's [s.split(sep)] for a separator of one character. *)
Fixpoint split_on (sep : ascii) (s : string) : list string :=
  match s with
  | EmptyString => [EmptyString]
  | String c s' =>
      if Ascii.eqb c sep then EmptyString :: split_on sep s'
      else match split_on sep s' with
           | [] => [String c EmptyString]
           | w :: ws => String c w :: ws
           end
  end.

(** [s.split("_")[-1]] *)
Definition last_component (s : string) : string :=
  last (split_on "_"%char s) EmptyString.

(** ** State and exceptions

    A computation over a state [S] that may raise: the state at the moment
    of the exception is kept, as the assignments made before a Python
    exception are. *)

Definition M (S A : Type) : Type := S -> result A * S.

Definition ret {S A : Type} (a : A) : M S A := fun s => (Ok a, s).

Definition bind {S A B : Type} (m : M S A) (k : A -> M S B) : M S B :=
  fun s =>
    match m s with
    | (Ok a, s') => k a s'
    | (Raise e, s') => (Raise e, s')
    end.

Definition raise {S A : Type} (e : exn) : M S A := fun s => (Raise e, s).

Definition get {S : Type} : M S S := fun s => (Ok s, s).

Definition put {S : Type} (s : S) : M S unit := fun _ => (Ok tt, s).

Definition lift {S A : Type} (r : result A) : M S A := fun s => (r, s).

Declare Scope monad_scope.
Delimit Scope monad_scope with monad.
Notation "x <- m ;; k" := (bind m (fun x => k))
  (at level 61, m at next level, right associativity) : monad_scope.
Notation "' p <- m ;; k" := (bind m (fun x => match x with p => k end))
  (at level 61, p pattern, m at next level, right associativity)
  : monad_scope.
Notation "m ;; k" := (bind m (fun _ => k))
  (at level 61, right associativity) : monad_scope.
Local Open Scope monad_scope.

(** A statement guarded by [if b:]. *)
Definition when {S : Type} (b : bool) (m : M S unit) : M S unit :=
  if b then m else ret tt.

(** ** The interception state of an attention layer *)

(** The control variables that [set_initial_tf_variables] adds to a layer. *)
Record Control : Type := mkControl {
  cross_attn_mode : string;
  use_prompt_weights : bool;
  attn_map : tensor R;
  prompt_edit_mask : tensor R;
  prompt_edit_indices : tensor Z;
  prompt_weights : tensor R
}.

(** The values given by [set_initial_tf_variables] (l.162-189) and by
    [reset_initial_tf_variables] (l.202-208). *)
Definition initial_control : Control :=
  mkControl EmptyString false empty_tensor empty_tensor empty_tensor
    empty_tensor.

Definition assign_cross_attn_mode (mode : string) (c : Control) : Control :=
  mkControl mode (use_prompt_weights c) (attn_map c) (prompt_edit_mask c)
    (prompt_edit_indices c) (prompt_weights c).

Definition assign_use_prompt_weights (use : bool) (c : Control) : Control :=
  mkControl (cross_attn_mode c) use (attn_map c) (prompt_edit_mask c)
    (prompt_edit_indices c) (prompt_weights c).

Definition assign_attn_map (w : tensor R) (c : Control) : Control :=
  mkControl (cross_attn_mode c) (use_prompt_weights c) w (prompt_edit_mask c)
    (prompt_edit_indices c) (prompt_weights c).

Definition assign_mask_indices (mask : tensor R) (indices : tensor Z)
  (c : Control) : Control :=
  mkControl (cross_attn_mode c) (use_prompt_weights c) (attn_map c) mask
    indices (prompt_weights c).

Definition assign_prompt_weights (w : tensor R) (c : Control) : Control :=
  mkControl (cross_attn_mode c) (use_prompt_weights c) (attn_map c)
    (prompt_edit_mask c) (prompt_edit_indices c) w.

(** ** The collaborators

    What the two files use and do not define. *)

(** The argument of an attention layer: [(inputs, context)], where
    [context] is [None] in a self-attention layer. *)
Definition attn_input : Type := (tensor R * option (tensor R))%type.

(** The forward pass of the denoising network, seen from outside: it returns
    its result, or calls the attention layer at a position of
    [diffusion_model.submodules] and goes on with the layer's output. *)
Inductive Net (A : Type) : Type :=
| NRet (a : A)
| NCall (layer : nat) (inp : attn_input) (k : tensor R -> Net A).

Arguments NRet {A} a.
Arguments NCall {A} layer inp k.

Class Collaborators : Type := {
  (** [constants._ALPHAS_CUMPROD] *)
  ALPHAS_CUMPROD : list R;
  (** [constants._UNCONDITIONAL_TOKENS] *)
  UNCONDITIONAL_TOKENS : list Z;
  (** [SimpleTokenizer.encode] *)
  tokenizer_encode : string -> list Z;
  (** [seq_aligner.get_mapper] *)
  get_mapper : list Z -> list Z -> tensor R * tensor Z;
  (** [text_encoder.predict_on_batch([phrase, pos_ids])] *)
  text_encoder_predict : tensor Z -> tensor Z -> result (tensor R);
  (** the names of [diffusion_model.submodules], in order, as built *)
  submodule_names : list string;
  (** the weights of the layer at a position of [submodules], before they
      are intercepted: [softmax(td_dot(q, k) * scale)]
      (call_attention_edit l.229-241) *)
  raw_weights : nat -> attn_input -> result (tensor R);
  (** what the layer does with the weights:
      [out_proj(reshape(transpose(td_dot(weights, v))))] (l.270-275) *)
  attend : nat -> tensor R -> attn_input -> result (tensor R);
  (** [diffusion_model.predict_on_batch([latent, t_emb, context])] *)
  unet : tensor R -> tensor R -> tensor R -> Net (result (tensor R));
  (** [decoder.predict_on_batch] *)
  decoder_predict : tensor R -> result (tensor R);
  (** [image_encoder(image)] *)
  image_encoder_call : tensor R -> result (tensor R);
  (** [tf.nn.max_pool2d(mask, ksize=8, strides=8, padding="SAME")] *)
  max_pool2d : tensor R -> result (tensor R);
  (** [tf.random.stateless_normal(shape, seed=[seed, seed])] *)
  stateless_normal : list nat -> Z -> tensor R;
  (** [tf.random.normal(shape, seed=seed)]: the [n]-th draw of the run *)
  random_normal : nat -> list nat -> option Z -> tensor R
}.

(** ** The intercepted forward pass of an attention layer *)

(** The values of [cross_attn_mode] that the documentation of
    [update_cross_attention_mode] lists (l.62-67), and the initial value
    (l.162-164). *)
Definition documented_modes : list string :=
  [""%string; "save"%string; "use_last"%string; "edit"%string;
   "injection"%string; "unconditional"%string].

Definition documented_mode (mode : string) : bool :=
  existsb (String.eqb mode) documented_modes.

(** Method: Prompt Refinement (l.243-253). *)
Definition refine_weights (c : Control) (weights : tensor R)
  : result (tensor R) :=
  if (cross_attn_mode c =? "edit")%string
     && negb (tf_size (prompt_edit_mask c) =? 0)%nat
  then
    do weights_masked <- tf_gather_last (attn_map c) (prompt_edit_indices c);
    do kept <- tmul weights_masked (prompt_edit_mask c);
    do fresh <- tmul weights (tmap (fun m => (1 - m)%R) (prompt_edit_mask c));
    do edit_weights <- tadd kept fresh;
    tf_reshape edit_weights (shape weights)
  else Ok weights.

(** Use the attention from the original prompt (l.255-257). *)
Definition use_last_weights (c : Control) (weights : tensor R)
  : result (tensor R) :=
  if (cross_attn_mode c =? "use_last")%string
  then tf_reshape (attn_map c) (shape weights)
  else Ok weights.

(** Method: Attention Re-weighting (l.263-268). *)
Definition reweight_weights (c : Control) (weights : tensor R)
  : result (tensor R) :=
  if use_prompt_weights c && negb (tf_size (prompt_weights c) =? 0)%nat
  then
    do attn_map_weighted <- tmul weights (prompt_weights c);
    tf_reshape attn_map_weighted (shape weights)
  else Ok weights.

(** [call_attention_edit], l.243-268: from the softmax weights to the weights
    that are multiplied with [v]. *)
Definition resolve_weights (weights : tensor R) : M Control (tensor R) :=
  c <- get ;;
  weights <- lift (refine_weights c weights) ;;
  weights <- lift (use_last_weights c weights) ;;
  (* Save attention (l.259-261) *)
  when (cross_attn_mode c =? "save")%string
    (put (assign_attn_map weights c)) ;;
  lift (reweight_weights c weights).

Section Attention.
Context {collab : Collaborators}.

(** [call_attention_edit] (l.224-275), bound to the layer at position
    [self] of [submodules]. *)
Definition call_attention_edit (self : nat) (inputs : attn_input)
  : M Control (tensor R) :=
  weights <- lift (raw_weights self inputs) ;;
  weights <- resolve_weights weights ;;
  lift (attend self weights inputs).

End Attention.

(** ** The diffusion model as the two files see it *)

(** An element of [diffusion_model.submodules]: its name, whether
    [overwrite_forward_call] replaced its [call], and the control variables
    once [set_initial_tf_variables] created them. *)
Record Submodule : Type := mkSubmodule {
  name : string;
  call_overwritten : bool;
  control : option Control
}.

Definition Model : Type := list Submodule.

(** [for submodule in diffusion_model.submodules: ...]: an exception leaves
    the submodules already visited updated. *)
Fixpoint for_each (body : Submodule -> result Submodule) (m : Model)
  : result unit * Model :=
  match m with
  | [] => (Ok tt, [])
  | sm :: rest =>
      match body sm with
      | Raise e => (Raise e, sm :: rest)
      | Ok sm' => let (r, rest') := for_each body rest in (r, sm' :: rest')
      end
  end.

(** [submodule.<variable>.assign(...)]: the variable has to exist. *)
Definition assign (f : Control -> Control) (sm : Submodule)
  : result Submodule :=
  match control sm with
  | Some c => Ok (mkSubmodule (name sm) (call_overwritten sm) (Some (f c)))
  | None => Raise AttributeError
  end.

Definition is_cross_attention (sm : Submodule) : bool :=
  contains "cross_attention" (name sm).

(** ["cross_attention" in name and suffix in name.split("_")[-1]] *)
Definition is_attention_with (suffix : string) (sm : Submodule) : bool :=
  is_cross_attention sm && contains suffix (last_component (name sm)).

Module P2PUtils.

(** [rename_cross_attention_layers] (l.34-54); the counter is threaded
    through the loop. *)
Fixpoint rename_from (cross_attention_count : nat) (m : Model) : Model :=
  match m with
  | [] => []
  | sm :: rest =>
      if negb (Nat.odd cross_attention_count) && is_cross_attention sm then
        mkSubmodule (name sm ++ "_attn1") (call_overwritten sm) (control sm)
          :: rename_from (cross_attention_count + 1) rest
      else if Nat.odd cross_attention_count && is_cross_attention sm then
        mkSubmodule (name sm ++ "_attn2") (call_overwritten sm) (control sm)
          :: rename_from (cross_attention_count + 1) rest
      else sm :: rename_from cross_attention_count rest
  end.

Definition rename_cross_attention_layers : M Model unit :=
  fun m => (Ok tt, rename_from 0 m).

(** [update_cross_attention_mode] (l.57-76) *)
Definition update_cross_attention_mode (mode : string) (attn_suffix : string)
  : M Model unit :=
  for_each (fun sm =>
    if is_attention_with attn_suffix sm
    then assign (assign_cross_attn_mode mode) sm
    else Ok sm).

(** [update_attention_weights_usage] (l.79-92) *)
Definition update_attention_weights_usage (use : bool) : M Model unit :=
  for_each (fun sm =>
    if is_attention_with "attn2" sm
    then assign (assign_use_prompt_weights use) sm
    else Ok sm).

(** [add_attention_weights] (l.95-108) *)
Definition add_attention_weights (prompt_weights : tensor R) : M Model unit :=
  for_each (fun sm =>
    if is_attention_with "attn2" sm
    then assign (assign_prompt_weights prompt_weights) sm
    else Ok sm).

(** [put_mask_diffusion_model] (l.111-126) *)
Definition put_mask_diffusion_model (mask : tensor R) (indices : tensor Z)
  : M Model unit :=
  for_each (fun sm =>
    if is_attention_with "attn2" sm
    then assign (assign_mask_indices mask indices) sm
    else Ok sm).

(** [set_initial_tf_variables] (l.152-189): plain attribute assignments. *)
Definition set_initial_tf_variables : M Model unit :=
  for_each (fun sm =>
    if is_cross_attention sm
    then Ok (mkSubmodule (name sm) (call_overwritten sm)
               (Some initial_control))
    else Ok sm).

(** [reset_initial_tf_variables] (l.192-208): six [assign]s with the
    initial values. *)
Definition reset_initial_tf_variables : M Model unit :=
  for_each (fun sm =>
    if is_cross_attention sm
    then assign (fun _ => initial_control) sm
    else Ok sm).

(** [overwrite_forward_call] (l.211-221) *)
Definition overwrite_forward_call : M Model unit :=
  for_each (fun sm =>
    if is_cross_attention sm
    then Ok (mkSubmodule (name sm) true (control sm))
    else Ok sm).

Section WithCollaborators.
Context {collab : Collaborators}.

(** [get_matching_sentence_tokens] (l.129-149) *)
Definition get_matching_sentence_tokens (prompt prompt_edit : string)
  : tensor R * tensor Z :=
  let tokens_conditional := tokenizer_encode prompt in
  let tokens_conditional_edit := tokenizer_encode prompt_edit in
  get_mapper tokens_conditional tokens_conditional_edit.

End WithCollaborators.

End P2PUtils.

(** ** More of TensorFlow and of Python's [math] *)

(** [tf.squeeze] *)
Definition tf_squeeze {A : Type} (t : tensor A) : tensor A :=
  Tensor (filter (fun d => negb (d =? 1)%nat) (shape t)) (data t).

(** [t.shape.rank] *)
Definition rank {A : Type} (t : tensor A) : nat := List.length (shape t).

(** [tf.expand_dims(t, axis=0)] and [tf.expand_dims(t, axis=-1)] *)
Definition expand_dims_first {A : Type} (t : tensor A) : tensor A :=
  Tensor (1%nat :: shape t) (data t).

Definition expand_dims_last {A : Type} (t : tensor A) : tensor A :=
  Tensor (shape t ++ [1%nat]) (data t).

(** [tf.repeat(t, n, axis=0)]: every slice along the first axis is
    repeated [n] times. *)
Definition tf_repeat {A : Type} (t : tensor A) (n : nat) : result (tensor A) :=
  match shape t with
  | [] => Raise InvalidArgumentError
  | d :: rest =>
      let row i := firstn (size rest) (skipn (i * size rest) (data t)) in
      Ok (Tensor ((d * n)%nat :: rest)
            (flat_map (fun i => List.concat (repeat (row i) n)) (seq 0 d)))
  end.

(** [math.sqrt]: a negative argument is a [ValueError]. *)
Definition math_sqrt (x : R) : result R :=
  if Rle_dec 0 x then Ok (sqrt x) else Raise ValueError.

(** Python's [x / y] on floats. *)
Definition float_div (x y : R) : result R :=
  if Req_EM_T y 0 then Raise ZeroDivisionError else Ok (x / y)%R.

(** ** The pipeline object *)

(** The invocations of a network, most recent first. *)
Inductive Invocation : Type :=
| TextEncoderRun
| DiffusionRun
| DecoderRun
| ImageEncoderRun.

(** The attributes of a [StableDiffusionBase] that the methods read and
    write.  [diffusion_model] and [diffusion_model_prompt_to_prompt] are
    one object ([self._diffusion_model_prompt_to_prompt =
    self._diffusion_model], l.945-950); [prompt_to_prompt_ready] says that
    [_diffusion_model_prompt_to_prompt] is not [None] any more.
    [invocations] and [draws] record what was asked of the networks and of
    the global random generator. *)
Record Pipeline : Type := mkPipeline {
  img_height : nat;
  img_width : nat;
  submodules : Model;
  prompt_to_prompt_ready : bool;
  invocations : list Invocation;
  draws : nat
}.

Definition with_submodules (m : Model) (p : Pipeline) : Pipeline :=
  mkPipeline (img_height p) (img_width p) m (prompt_to_prompt_ready p)
    (invocations p) (draws p).

(** A computation on the diffusion model, run on the pipeline's. *)
Definition on_model {A : Type} (f : M Model A) : M Pipeline A :=
  fun p => let (r, m) := f (submodules p) in (r, with_submodules m p).

Definition invoke (i : Invocation) : M Pipeline unit :=
  fun p =>
    (Ok tt,
     mkPipeline (img_height p) (img_width p) (submodules p)
       (prompt_to_prompt_ready p) (i :: invocations p) (draws p)).

(** [for x in l: acc = body(x, acc)] *)
Fixpoint for_loop {S A B : Type} (l : list A) (body : A -> B -> M S B)
  (acc : B) : M S B :=
  match l with
  | [] => ret acc
  | x :: xs => acc' <- body x acc ;; for_loop xs body acc'
  end.

Definition MAX_PROMPT_LENGTH : nat := 77.

Definition is_some {A : Type} (o : option A) : bool :=
  match o with Some _ => true | None => false end.

(** An edit window as [prompt_to_prompt] receives it: a float or a pair. *)
Inductive steps : Type :=
| StepsFloat (x : Q)
| StepsPair (lower upper : Q).

Module StableDiffusion.
Section WithCollaborators.
Context {collab : Collaborators}.

(** Modelled from the spec: the [call] of an attention layer before
    [overwrite_forward_call] replaces it (diffusion_model.py, not among the
    sources).  Section 4.4: the softmax weights go to the output computation
    unchanged, [output = weights . V], projected. *)
Definition original_call (self : nat) (inputs : attn_input)
  : result (tensor R) :=
  do weights <- raw_weights self inputs;
  attend self weights inputs.

(** The network calls the layer at position [i]. *)
Definition call_layer (i : nat) (inputs : attn_input) : M Model (tensor R) :=
  fun m =>
    match nth_error m i with
    | None => (Raise IndexError, m)
    | Some sm =>
        if call_overwritten sm then
          match control sm with
          | None => (Raise AttributeError, m)
          | Some c =>
              let (r, c') := call_attention_edit i inputs c in
              (r, firstn i m
                    ++ mkSubmodule (name sm) (call_overwritten sm) (Some c')
                    :: skipn (S i) m)
          end
        else (original_call i inputs, m)
    end.

Fixpoint run_net {A : Type} (net : Net A) : M Model A :=
  match net with
  | NRet a => ret a
  | NCall i inputs k => out <- call_layer i inputs ;; run_net (k out)
  end.

(** [self.diffusion_model.predict_on_batch([latent, t_emb, context])] *)
Definition diffusion_predict (latent t_emb context : tensor R)
  : M Pipeline (tensor R) :=
  invoke DiffusionRun ;;
  r <- on_model (run_net (unet latent t_emb context)) ;;
  lift r.

(** The property [diffusion_model_prompt_to_prompt] (l.935-963). *)
Definition diffusion_model_prompt_to_prompt : M Pipeline unit :=
  p <- get ;;
  if prompt_to_prompt_ready p then ret tt
  else
    put (mkPipeline (img_height p) (img_width p) (submodules p) true
           (invocations p) (draws p)) ;;
    on_model P2PUtils.rename_cross_attention_layers ;;
    on_model P2PUtils.overwrite_forward_call ;;
    on_model P2PUtils.set_initial_tf_variables.

(** [f(self.diffusion_model_prompt_to_prompt, ...)] *)
Definition on_prompt_to_prompt_model {A : Type} (f : M Model A)
  : M Pipeline A :=
  diffusion_model_prompt_to_prompt ;; on_model f.

(** [_get_pos_ids] (l.861-865) *)
Definition _get_pos_ids : tensor Z :=
  Tensor [1%nat; MAX_PROMPT_LENGTH]
    (map Z.of_nat (seq 0 MAX_PROMPT_LENGTH)).

(** [encode_text] (l.89-124) *)
Definition encode_text (prompt : string) : M Pipeline (tensor R) :=
  let inputs := tokenizer_encode prompt in
  if (MAX_PROMPT_LENGTH <? List.length inputs)%nat then raise ValueError
  else
    let phrase :=
      (inputs
       ++ repeat 49407%Z (MAX_PROMPT_LENGTH - List.length inputs))%list in
    let phrase := Tensor [1%nat; List.length phrase] phrase in
    invoke TextEncoderRun ;;
    lift (text_encoder_predict phrase _get_pos_ids).

(** [_get_unconditional_context] (l.760-768) *)
Definition _get_unconditional_context : M Pipeline (tensor R) :=
  let unconditional_tokens :=
    Tensor [1%nat; List.length UNCONDITIONAL_TOKENS] UNCONDITIONAL_TOKENS in
  invoke TextEncoderRun ;;
  lift (text_encoder_predict unconditional_tokens _get_pos_ids).

(** [_expand_tensor] (l.770-777) *)
Definition _expand_tensor (text_embedding : tensor R) (batch_size : nat)
  : result (tensor R) :=
  let text_embedding := tf_squeeze text_embedding in
  if (rank text_embedding =? 2)%nat
  then tf_repeat (expand_dims_first text_embedding) batch_size
  else Ok text_embedding.

(** [_get_timestep_embedding] (l.824-834) *)
Definition _get_timestep_embedding (timestep : Z) (batch_size : nat)
  (dim : nat) (max_period : R) : result (tensor R) :=
  let half := (dim / 2)%nat in
  let freqs :=
    map (fun i => exp (- ln max_period * INR i / INR half)) (seq 0 half) in
  let args := map (fun f => (IZR timestep * f)%R) freqs in
  let embedding := (map cos args ++ map sin args)%list in
  do embedding <-
    tf_reshape (Tensor [List.length embedding] embedding)
      [1%nat; List.length embedding];
  tf_repeat embedding batch_size.

(** [_get_x_prev] (l.842-848), in two parts: the predicted clean latent
    (l.843-844) and the step back from it (l.845-847). *)
Definition pred_x0 (x e_t : tensor R) (a_t : R) : result (tensor R) :=
  do sqrt_one_minus_at <- math_sqrt (1 - a_t);
  do num <- tsub x (tmap (Rmult sqrt_one_minus_at) e_t);
  do sqrt_at <- math_sqrt a_t;
  Ok (tmap (fun v => (v / sqrt_at)%R) num).

Definition x_prev_of (pred_x0 e_t : tensor R) (a_prev : R)
  : result (tensor R) :=
  (* Direction pointing to x_t *)
  do s <- math_sqrt (1 - a_prev);
  let dir_xt := tmap (Rmult s) e_t in
  do s' <- math_sqrt a_prev;
  tadd (tmap (Rmult s') pred_x0) dir_xt.

Definition _get_x_prev (x e_t : tensor R) (a_t a_prev : R)
  : result (tensor R) :=
  do pred_x0 <- pred_x0 x e_t a_t;
  x_prev_of pred_x0 e_t a_prev.

(** [_get_initial_diffusion_noise] (l.850-859) *)
Definition _get_initial_diffusion_noise (batch_size : nat) (seed : option Z)
  : M Pipeline (tensor R) :=
  p <- get ;;
  let sh := [batch_size; (img_height p / 8)%nat; (img_width p / 8)%nat;
             4%nat] in
  match seed with
  | Some seed => ret (stateless_normal sh seed)
  | None =>
      put (mkPipeline (img_height p) (img_width p) (submodules p)
             (prompt_to_prompt_ready p) (invocations p) (S (draws p))) ;;
      ret (random_normal (draws p) sh None)
  end.

(** [tf.random.normal(shape, seed=seed)] inside [inpaint] *)
Definition draw_normal (sh : list nat) (seed : option Z)
  : M Pipeline (tensor R) :=
  p <- get ;;
  put (mkPipeline (img_height p) (img_width p) (submodules p)
         (prompt_to_prompt_ready p) (invocations p) (S (draws p))) ;;
  ret (random_normal (draws p) sh seed).

(** The decoding stage (l.235-238, l.526-529, l.692-695). *)
Definition decode (latent : tensor R) : M Pipeline (tensor Z) :=
  invoke DecoderRun ;;
  decoded <- lift (decoder_predict latent) ;;
  let decoded := tmap (fun v => ((v + 1) / 2 * 255)%R) decoded in
  (* np.clip(decoded, 0, 255).astype("uint8") *)
  ret (tmap (fun v => Int_part (Rmin 255 (Rmax v 0))) decoded).

(** The unconditional context (l.188-196, l.376-384, l.618-626). *)
Definition get_unconditional_context (negative_prompt : option string)
  (batch_size : nat) : M Pipeline (tensor R) :=
  match negative_prompt with
  | None =>
      c <- _get_unconditional_context ;;
      lift (tf_repeat c batch_size)
  | Some negative_prompt =>
      unconditional_context <- encode_text negative_prompt ;;
      lift (_expand_tensor unconditional_context batch_size)
  end.

(** The initial latent (l.198-206, l.387-395, l.628-636). *)
Definition get_initial_latent (diffusion_noise : option (tensor R))
  (batch_size : nat) (seed : option Z) : M Pipeline (tensor R) :=
  match diffusion_noise with
  | Some diffusion_noise =>
      let diffusion_noise := tf_squeeze diffusion_noise in
      if (rank diffusion_noise =? 3)%nat
      then lift (tf_repeat (expand_dims_first diffusion_noise) batch_size)
      else ret diffusion_noise
  | None => _get_initial_diffusion_noise batch_size seed
  end.

(** Classifier-free guidance:
    [unconditional_latent + scale * (latent - unconditional_latent)]. *)
Definition guidance (unconditional_latent latent : tensor R) (scale : R)
  : result (tensor R) :=
  do d <- tsub latent unconditional_latent;
  tadd unconditional_latent (tmap (Rmult scale) d).

(** The step of [generate_image] (l.226-231) and of [inpaint] (l.660-666),
    written out there instead of calling [_get_x_prev]. *)
Definition inline_step (latent_prev latent : tensor R) (a_t a_prev : R)
  : result (tensor R) :=
  do s <- math_sqrt (1 - a_t);
  do num <- tsub latent_prev (tmap (Rmult s) latent);
  do sqrt_at <- math_sqrt a_t;
  let pred_x0 := tmap (fun v => (v / sqrt_at)%R) num in
  do s1 <- math_sqrt (1 - a_prev);
  do s2 <- math_sqrt a_prev;
  tadd (tmap (fun v => (v * s1)%R) latent) (tmap (Rmult s2) pred_x0).

(** [generate_image] (l.126-238) *)
Definition generate_image (encoded_text : tensor R)
  (negative_prompt : option string) (batch_size : nat) (num_steps : Z)
  (unconditional_guidance_scale : R) (diffusion_noise : option (tensor R))
  (seed : option Z) : M Pipeline (tensor Z) :=
  if is_some diffusion_noise && is_some seed then raise ValueError
  else
    context <- lift (_expand_tensor encoded_text batch_size) ;;
    unconditional_context <-
      get_unconditional_context negative_prompt batch_size ;;
    latent <- get_initial_latent diffusion_noise batch_size seed ;;
    (* Iterative reverse diffusion stage *)
    timesteps <- lift (Schedule.timesteps num_steps) ;;
    ' (alphas, alphas_prev) <-
      lift (Schedule._get_initial_alphas ALPHAS_CUMPROD timesteps) ;;
    latent <-
      for_loop (enumerate_rev timesteps)
        (fun '(index, timestep) latent =>
           let latent_prev := latent in
           t_emb <- lift (_get_timestep_embedding timestep batch_size
                            320 10000) ;;
           unconditional_latent <-
             diffusion_predict latent t_emb unconditional_context ;;
           latent <- diffusion_predict latent t_emb context ;;
           latent <- lift (guidance unconditional_latent latent
                             unconditional_guidance_scale) ;;
           a_t <- lift (py_index alphas (Z.of_nat index)) ;;
           a_prev <- lift (py_index alphas_prev (Z.of_nat index)) ;;
           lift (inline_step latent_prev latent a_t a_prev))
        latent ;;
    (* Decoding stage *)
    decode latent.

(** [text_to_image] (l.69-87) *)
Definition text_to_image (prompt : string) (negative_prompt : option string)
  (batch_size : nat) (num_steps : Z) (unconditional_guidance_scale : R)
  (seed : option Z) : M Pipeline (tensor Z) :=
  encoded_text <- encode_text prompt ;;
  generate_image encoded_text negative_prompt batch_size num_steps
    unconditional_guidance_scale None seed.

(** [attn_edit_weights.size]; [None] has no such attribute. *)
Definition ndarray_size (a : option (tensor R)) : result nat :=
  match a with
  | Some t => Ok (tf_size t)
  | None => Raise AttributeError
  end.

(** l.360-363: a float [x] stands for the pair [(0.0, x)]. *)
Definition as_window (s : steps) : Q * Q :=
  match s with
  | StepsFloat x => (0, x)
  | StepsPair lower upper => (lower, upper)
  end.

(** [t_scale = 1 - (timestep / 1000)] (l.428) *)
Definition t_scale_of (timestep : Z) : Q := 1 - inject_Z timestep / 1000.

(** [window[0] <= t_scale <= window[1]] (l.455, l.486) *)
Definition in_window (window : Q * Q) (t_scale : Q) : bool :=
  Qle_bool (fst window) t_scale && Qle_bool t_scale (snd window).

(** [self.diffusion_model_prompt_to_prompt.predict_on_batch(...)] *)
Definition prompt_to_prompt_predict (latent t_emb context : tensor R)
  : M Pipeline (tensor R) :=
  diffusion_model_prompt_to_prompt ;;
  diffusion_predict latent t_emb context.

(** l.454-499 of [prompt_to_prompt]: the modes of the attention layers for
    the pass with the edited prompt.  [has_weights] is
    [attn_edit_weights.size] as a truth value. *)
Definition set_edit_modes (method : string) (self_attn_steps cross_attn_steps
  : Q * Q) (has_weights : bool) (t_scale : Q) : M Pipeline unit :=
  (* Edit the Cross-Attention layer activations *)
  (if in_window cross_attn_steps t_scale then
     (if (method =? "replace")%string then
        (* Use cross attention from the original prompt (M_t) *)
        on_prompt_to_prompt_model
          (P2PUtils.update_cross_attention_mode "use_last" "attn2")
      else if (method =? "refine")%string then
        (* Use cross attention with function A(J) *)
        on_prompt_to_prompt_model
          (P2PUtils.update_cross_attention_mode "edit" "attn2")
      else ret tt) ;;
     when ((method =? "reweight")%string || has_weights)
       (* Use the parsed weights on the edited prompt *)
       (on_prompt_to_prompt_model
          (P2PUtils.update_attention_weights_usage true))
   else
     (* Use cross attention from the edited prompt (M^*_t) *)
     on_prompt_to_prompt_model
       (P2PUtils.update_cross_attention_mode "injection" "attn2")) ;;
  (* Edit the self-Attention layer activations *)
  (if in_window self_attn_steps t_scale then
     (* Use self attention from the original prompt (M_t) *)
     on_prompt_to_prompt_model
       (P2PUtils.update_cross_attention_mode "use_last" "attn1")
   else
     (* Use self attention from the edited prompt (M^*_t) *)
     on_prompt_to_prompt_model
       (P2PUtils.update_cross_attention_mode "injection" "attn1")).

(** The body of the loop of [prompt_to_prompt] (l.425-521). *)
Definition prompt_to_prompt_step (method : string)
  (self_attn_steps cross_attn_steps : Q * Q) (has_weights : bool)
  (unconditional_context conditional_context conditional_context_edit
   : tensor R) (unconditional_guidance_scale : R) (batch_size : nat)
  (alphas alphas_prev : list R) (index : nat) (timestep : Z)
  (latent : tensor R) : M Pipeline (tensor R) :=
  t_emb <- lift (_get_timestep_embedding timestep batch_size 320 10000) ;;
  let t_scale := t_scale_of timestep in
  (* Update Cross-Attention mode to 'unconditional' *)
  on_prompt_to_prompt_model
    (P2PUtils.update_cross_attention_mode "unconditional" "attn") ;;
  (* Predict the unconditional noise residual *)
  unconditional_latent <-
    prompt_to_prompt_predict latent t_emb unconditional_context ;;
  (* Save last cross attention activations *)
  on_prompt_to_prompt_model
    (P2PUtils.update_cross_attention_mode "save" "attn") ;;
  (* Predict the conditional noise residual *)
  prompt_to_prompt_predict latent t_emb conditional_context ;;
  set_edit_modes method self_attn_steps cross_attn_steps has_weights
    t_scale ;;
  (* Predict the edited conditional noise residual *)
  conditional_latent_edit <-
    prompt_to_prompt_predict latent t_emb conditional_context_edit ;;
  (* Assign usage to False so it doesn't get used in other contexts *)
  when has_weights
    (on_prompt_to_prompt_model
       (P2PUtils.update_attention_weights_usage false)) ;;
  (* Perform guidance *)
  e_t <- lift (guidance unconditional_latent conditional_latent_edit
                 unconditional_guidance_scale) ;;
  a_t <- lift (py_index alphas (Z.of_nat index)) ;;
  a_prev <- lift (py_index alphas_prev (Z.of_nat index)) ;;
  lift (_get_x_prev latent e_t a_t a_prev).

(** [prompt_to_prompt] (l.240-536) *)
Definition prompt_to_prompt (prompt prompt_edit method : string)
  (self_attn_steps cross_attn_steps : steps)
  (attn_edit_weights : option (tensor R)) (negative_prompt : option string)
  (num_steps : Z) (unconditional_guidance_scale : R) (batch_size : nat)
  (diffusion_noise : option (tensor R)) (seed : option Z)
  : M Pipeline (tensor Z) :=
  if is_some diffusion_noise && is_some seed then raise ValueError
  (* Prompt-to-Prompt: check inputs *)
  else if negb (existsb (String.eqb method)
                  ["refine"%string; "replace"%string; "reweight"%string])
  then raise ValueError
  else
    no_weights <- lift
      (if (method =? "reweight")%string
       then do n <- ndarray_size attn_edit_weights; Ok (n =? 0)%nat
       else Ok false) ;;
    if no_weights : bool then raise ValueError
    else
      let self_attn_steps := as_window self_attn_steps in
      let cross_attn_steps := as_window cross_attn_steps in
      (* Tokenize and encode prompt *)
      encoded_text <- encode_text prompt ;;
      conditional_context <- lift (_expand_tensor encoded_text batch_size) ;;
      (* Tokenize and encode edit prompt *)
      encoded_text_edit <- encode_text prompt_edit ;;
      conditional_context_edit <-
        lift (_expand_tensor encoded_text_edit batch_size) ;;
      (* Add negative prompts *)
      unconditional_context <-
        get_unconditional_context negative_prompt batch_size ;;
      (* Get initial random noise *)
      latent <- get_initial_latent diffusion_noise batch_size seed ;;
      (* Add mask and indices for the Prompt-to-Prompt refine method *)
      when (method =? "refine")%string
        (let (mask, indices) :=
           P2PUtils.get_matching_sentence_tokens prompt prompt_edit in
         on_prompt_to_prompt_model
           (P2PUtils.put_mask_diffusion_model mask indices)) ;;
      (* Update prompt weights variable *)
      n <- lift (ndarray_size attn_edit_weights) ;;
      let has_weights := negb (n =? 0)%nat in
      when has_weights
        (match attn_edit_weights with
         | Some w =>
             on_prompt_to_prompt_model (P2PUtils.add_attention_weights w)
         | None => raise AttributeError
         end) ;;
      (* Scheduler *)
      timesteps <- lift (Schedule.timesteps num_steps) ;;
      (* Get initial parameters *)
      ' (alphas, alphas_prev) <-
        lift (Schedule._get_initial_alphas ALPHAS_CUMPROD timesteps) ;;
      (* Diffusion stage *)
      latent <-
        for_loop (enumerate_rev timesteps)
          (fun '(index, timestep) latent =>
             prompt_to_prompt_step method self_attn_steps cross_attn_steps
               has_weights unconditional_context conditional_context
               conditional_context_edit unconditional_guidance_scale
               batch_size alphas alphas_prev index timestep latent)
          latent ;;
      (* Decode image *)
      img <- decode latent ;;
      (* Reset control variables *)
      on_prompt_to_prompt_model P2PUtils.reset_initial_tf_variables ;;
      ret img.

(** One pass of the resampling loop of [inpaint] (l.650-686); the state of
    the loop is [(latent, latent_prev)]. *)
Definition inpaint_resample (known_x0 mask unconditional_context context
  t_emb : tensor R) (unconditional_guidance_scale : R) (seed : option Z)
  (num_resamples : nat) (timestep : Z) (a_t a_prev : R)
  (resample_index : nat) (state : tensor R * tensor R)
  : M Pipeline (tensor R * tensor R) :=
  let (latent, latent_prev) := state in
  unconditional_latent <-
    diffusion_predict latent t_emb unconditional_context ;;
  latent <- diffusion_predict latent t_emb context ;;
  latent <- lift (guidance unconditional_latent latent
                    unconditional_guidance_scale) ;;
  latent <- lift (inline_step latent_prev latent a_t a_prev) ;;
  (* Use known image (x0) to compute latent *)
  known_latent <-
    (if (1 <? timestep)%Z then
       noise <- draw_normal (shape known_x0) seed ;;
       lift (do s1 <- math_sqrt a_prev;
             do s2 <- math_sqrt (1 - a_prev);
             tadd (tmap (Rmult s1) known_x0) (tmap (Rmult s2) noise))
     else
       (* noise = 0.0 *)
       lift (do s1 <- math_sqrt a_prev;
             do s2 <- math_sqrt (1 - a_prev);
             Ok (tmap (fun v => (v + s2 * 0)%R) (tmap (Rmult s1) known_x0)))) ;;
  (* Use known latent in unmasked regions *)
  latent <- lift (do kept <- tmul mask known_latent;
                  do fresh <- tmul (tmap (fun m => (1 - m)%R) mask) latent;
                  tadd kept fresh) ;;
  (* Resample latent *)
  if (Z.of_nat resample_index <? Z.of_nat num_resamples - 1)%Z
     && (1 <? timestep)%Z
  then
    q <- lift (float_div a_t a_prev) ;;
    let beta_prev := (1 - q)%R in
    s <- lift (math_sqrt (1 - beta_prev)) ;;
    let mean := tmap (fun v => (v * s)%R) latent in
    stddev <- lift (math_sqrt beta_prev) ;;
    rnd <- draw_normal (shape latent) seed ;;
    latent_prev <- lift (tadd (tmap (fun v => (v * stddev)%R) rnd) mean) ;;
    ret (latent, latent_prev)
  else ret (latent, latent_prev).

(** [inpaint] (l.538-695); the progress bar is left out. *)
Definition inpaint (prompt : string) (image mask : tensor R)
  (negative_prompt : option string) (num_resamples batch_size : nat)
  (num_steps : Z) (unconditional_guidance_scale : R)
  (diffusion_noise : option (tensor R)) (seed : option Z)
  : M Pipeline (tensor Z) :=
  if is_some diffusion_noise && is_some seed then raise ValueError
  else
    encoded_text <- encode_text prompt ;;
    let encoded_text := tf_squeeze encoded_text in
    encoded_text <- lift
      (if (rank encoded_text =? 2)%nat
       then tf_repeat (expand_dims_first encoded_text) batch_size
       else Ok encoded_text) ;;
    let image := tf_squeeze image in
    let image := tmap (fun v => (v / 255 * 2 - 1)%R) image in
    let image := expand_dims_first image in
    invoke ImageEncoderRun ;;
    known_x0 <- lift (image_encoder_call image) ;;
    known_x0 <- lift
      (if (rank image =? 3)%nat then tf_repeat known_x0 batch_size
       else Ok known_x0) ;;
    let mask := expand_dims_last mask in
    mask <- lift (max_pool2d mask) ;;
    let mask := tf_squeeze mask in
    mask <- lift
      (if (rank mask =? 2)%nat
       then tf_repeat (expand_dims_first mask) batch_size
       else Ok mask) ;;
    let mask := expand_dims_last mask in
    let context := encoded_text in
    unconditional_context <-
      get_unconditional_context negative_prompt batch_size ;;
    latent <- get_initial_latent diffusion_noise batch_size seed ;;
    (* Iterative reverse diffusion stage *)
    timesteps <- lift (Schedule.timesteps num_steps) ;;
    ' (alphas, alphas_prev) <-
      lift (Schedule._get_initial_alphas ALPHAS_CUMPROD timesteps) ;;
    latent <-
      for_loop (enumerate_rev timesteps)
        (fun '(index, timestep) latent =>
           a_t <- lift (py_index alphas (Z.of_nat index)) ;;
           a_prev <- lift (py_index alphas_prev (Z.of_nat index)) ;;
           let latent_prev := latent in
           t_emb <- lift (_get_timestep_embedding timestep batch_size
                            320 10000) ;;
           ' (latent, _) <-
             for_loop (seq 0 num_resamples)
               (inpaint_resample known_x0 mask unconditional_context context
                  t_emb unconditional_guidance_scale seed num_resamples
                  timestep a_t a_prev)
               (latent, latent_prev) ;;
           ret latent)
        latent ;;
    (* Decoding stage *)
    decode latent.

End WithCollaborators.
End StableDiffusion.

(** ** Tokenizing without encoding *)

Module Prompts.
Section WithCollaborators.
Context {collab : Collaborators}.

(** [tokenize_prompt] (l.697-713) *)
Definition tokenize_prompt (prompt : string) : result (tensor Z) :=
  let inputs := tokenizer_encode prompt in
  if (MAX_PROMPT_LENGTH <? List.length inputs)%nat then Raise ValueError
  else
    let phrase :=
      (inputs
       ++ repeat 49407%Z (MAX_PROMPT_LENGTH - List.length inputs))%list in
    Ok (Tensor [1%nat; List.length phrase] phrase).

End WithCollaborators.
End Prompts.

(** ** Vocabulary for the statements *)

(** The diffusion model after the property
    [diffusion_model_prompt_to_prompt] prepared it: every attention layer
    has its control variables, and its name ends in [_attn1] or [_attn2]. *)
Definition prepared_submodule (sm : Submodule) : bool :=
  implb (is_cross_attention sm)
    (is_some (control sm)
     && ((last_component (name sm) =? "attn1")%string
         || (last_component (name sm) =? "attn2")%string)).

Definition prepared (m : Model) : bool := forallb prepared_submodule m.

(** The mode of a layer and its [use_prompt_weights], when it has them. *)
Definition mode_of (sm : Submodule) : option string :=
  option_map cross_attn_mode (control sm).

Definition usage_of (sm : Submodule) : option bool :=
  option_map use_prompt_weights (control sm).

(** The layers are in their initial state. *)
Definition neutral (m : Model) : Prop :=
  Forall (fun sm => is_cross_attention sm = true ->
                    control sm = Some initial_control) m.

(** What a loop of assignments does to a submodule that has its control
    variables. *)
Definition apply_where (cond : Submodule -> bool) (f : Control -> Control)
  (sm : Submodule) : Submodule :=
  if cond sm
  then mkSubmodule (name sm) (call_overwritten sm) (option_map f (control sm))
  else sm.

(** What l.454-499 of [prompt_to_prompt] do to one submodule of a prepared
    model. *)
Definition edit_modes_of (method : string) (self_attn_steps cross_attn_steps
  : Q * Q) (has_weights : bool) (t_scale : Q) (sm : Submodule) : Submodule :=
  let sm :=
    if StableDiffusion.in_window cross_attn_steps t_scale then
      let sm :=
        if (method =? "replace")%string then
          apply_where (is_attention_with "attn2")
            (assign_cross_attn_mode "use_last") sm
        else if (method =? "refine")%string then
          apply_where (is_attention_with "attn2")
            (assign_cross_attn_mode "edit") sm
        else sm in
      if (method =? "reweight")%string || has_weights
      then apply_where (is_attention_with "attn2")
             (assign_use_prompt_weights true) sm
      else sm
    else
      apply_where (is_attention_with "attn2")
        (assign_cross_attn_mode "injection") sm in
  if StableDiffusion.in_window self_attn_steps t_scale
  then apply_where (is_attention_with "attn1")
         (assign_cross_attn_mode "use_last") sm
  else apply_where (is_attention_with "attn1")
         (assign_cross_attn_mode "injection") sm.

(** Two states of a submodule that differ at most in the cached map of a
    layer in the mode [save]. *)
Definition same_but_cache (sm sm' : Submodule) : Prop :=
  name sm' = name sm
  /\ call_overwritten sm' = call_overwritten sm
  /\ match control sm, control sm' with
     | None, None => True
     | Some c, Some c' =>
         c' = c
         \/ (cross_attn_mode c = "save"%string
             /\ exists w, c' = assign_attn_map w c)
     | _, _ => False
     end.

(** A computation that asks nothing of the random generator. *)
Definition draws_nothing {A : Type} (m : M Pipeline A) : Prop :=
  forall p, draws (snd (m p)) = draws p.

(** ** A small instance

    Collaborators small enough to run the methods on: two attention layers
    between two other submodules, a network that calls both, a text encoder
    and a decoder that return constants. *)

Module Demo.

Definition zeros (sh : list nat) : tensor R := Tensor sh (repeat 0%R (size sh)).

#[export] Instance collaborators : Collaborators := {|
  ALPHAS_CUMPROD := repeat (1 / 2)%R 1000;
  UNCONDITIONAL_TOKENS := 49406%Z :: repeat 49407%Z 76;
  tokenizer_encode :=
    fun s => [49406%Z; Z.of_nat (String.length s); 49407%Z];
  get_mapper := fun _ _ => (Tensor [2%nat] [1%R; 0%R], Tensor [2%nat] [1%Z; 0%Z]);
  text_encoder_predict := fun _ _ => Ok (zeros [1%nat; 2%nat; 3%nat]);
  submodule_names :=
    ["conv_in"%string; "cross_attention"%string; "cross_attention_1"%string;
     "conv_out"%string];
  raw_weights := fun _ inputs => Ok (fst inputs);
  attend := fun _ weights _ => Ok weights;
  unet :=
    fun latent _ context =>
      NCall 1 (latent, None) (fun h =>
      NCall 2 (h, Some context) (fun _ => NRet (Ok latent)));
  decoder_predict := fun latent => Ok latent;
  image_encoder_call := fun image => Ok image;
  max_pool2d := fun mask => Ok mask;
  stateless_normal := fun sh _ => zeros sh;
  random_normal := fun _ sh _ => zeros sh
|}.

(** A pipeline as [__init__] leaves it. *)
Definition fresh (height width : nat) : Pipeline :=
  mkPipeline height width
    (map (fun n => mkSubmodule n false None) submodule_names)
    false [] 0.

End Demo.

(** The same instance with a tokenizer that gives one token to every
    character, between the start and the end token. *)
Module LetterDemo.

#[export] Instance collaborators : Collaborators := {|
  ALPHAS_CUMPROD := @ALPHAS_CUMPROD Demo.collaborators;
  UNCONDITIONAL_TOKENS := @UNCONDITIONAL_TOKENS Demo.collaborators;
  tokenizer_encode :=
    fun s =>
      (49406%Z
       :: map (fun c => Z.of_nat (nat_of_ascii c)) (list_ascii_of_string s)
       ++ [49407%Z])%list;
  get_mapper := @get_mapper Demo.collaborators;
  text_encoder_predict := @text_encoder_predict Demo.collaborators;
  submodule_names := @submodule_names Demo.collaborators;
  raw_weights := @raw_weights Demo.collaborators;
  attend := @attend Demo.collaborators;
  unet := @unet Demo.collaborators;
  decoder_predict := @decoder_predict Demo.collaborators;
  image_encoder_call := @image_encoder_call Demo.collaborators;
  max_pool2d := @max_pool2d Demo.collaborators;
  stateless_normal := @stateless_normal Demo.collaborators;
  random_normal := @random_normal Demo.collaborators
|}.

(** A prompt of 80 letters. *)
Definition long_prompt : string :=
  string_of_list_ascii (repeat "a"%char 80).

End LetterDemo.

(** * Properties *)

(** ** The schedule *)

Section ScheduleFacts.
Import Schedule.
Local Open Scope Z_scope.

Lemma range_up_bounds (fuel : nat) (cur stop step x : Z) :
  0 < step -> In x (range_up fuel cur stop step) -> cur <= x < stop.
Proof.
  intros Hstep. revert cur.
  induction fuel as [|fuel IH]; intros cur Hin; simpl in Hin.
  - contradiction.
  - destruct (cur <? stop) eqn:E; [|contradiction].
    apply Z.ltb_lt in E. destruct Hin as [<-|Hin]; [lia|].
    apply IH in Hin. lia.
Qed.

Lemma range_up_increasing (fuel : nat) (cur stop step : Z) :
  0 < step -> StronglySorted Z.lt (range_up fuel cur stop step).
Proof.
  intros Hstep. revert cur.
  induction fuel as [|fuel IH]; intros cur; simpl.
  - constructor.
  - destruct (cur <? stop); constructor.
    + apply IH.
    + apply Forall_forall. intros x Hx.
      apply range_up_bounds in Hx; lia.
Qed.

(** The values are evenly spaced: the [i]-th one is [cur + i * step]. *)
Lemma range_up_nth (fuel : nat) (cur stop step : Z) (i : nat) (x : Z) :
  nth_error (range_up fuel cur stop step) i = Some x ->
  x = cur + Z.of_nat i * step.
Proof.
  revert cur i.
  induction fuel as [|fuel IH]; intros cur i H; simpl in H.
  - destruct i; discriminate.
  - destruct (cur <? stop); [|destruct i; discriminate].
    destruct i as [|i]; simpl in H.
    + injection H as <-. lia.
    + apply IH in H. lia.
Qed.

(** With enough fuel there are [ceil((stop - cur) / step)] values. *)
Lemma range_up_length (fuel : nat) (cur stop step : Z) :
  0 < step -> stop - cur <= Z.of_nat fuel ->
  Z.of_nat (List.length (range_up fuel cur stop step))
  = Z.max 0 ((stop - cur + step - 1) / step).
Proof.
  intros Hstep. revert cur.
  induction fuel as [|fuel IH]; intros cur Hfuel.
  - simpl. assert ((stop - cur + step - 1) / step <= 0); [|lia].
    apply Z.lt_succ_r, Z.div_lt_upper_bound; lia.
  - cbn [range_up]. destruct (cur <? stop) eqn:E.
    + apply Z.ltb_lt in E. cbn [List.length].
      rewrite Nat2Z.inj_succ, IH by lia.
      replace (stop - cur + step - 1) with (stop - cur - 1 + 1 * step) by lia.
      rewrite Z.div_add by lia.
      replace (stop - (cur + step) + step - 1) with (stop - cur - 1) by lia.
      assert (0 <= (stop - cur - 1) / step) by (apply Z.div_pos; lia).
      lia.
    + apply Z.ltb_ge in E. simpl.
      assert ((stop - cur + step - 1) / step <= 0); [|lia].
      apply Z.lt_succ_r, Z.div_lt_upper_bound; lia.
Qed.

(** For [num_steps] in [1, 1000] the schedule is
    [range_up 999 1 1000 (1000 / num_steps)]. *)
Lemma timesteps_eq (num_steps : Z) :
  1 <= num_steps <= 1000 ->
  timesteps num_steps = Ok (range_up 999 1 1000 (1000 / num_steps))
  /\ 0 < 1000 / num_steps.
Proof.
  intros H.
  assert (Hs : 0 < 1000 / num_steps) by (apply Z.div_str_pos; lia).
  split; [|exact Hs].
  unfold timesteps, tf_range.
  destruct (num_steps =? 0) eqn:E0; [apply Z.eqb_eq in E0; lia|].
  destruct (1000 / num_steps =? 0) eqn:E1; [apply Z.eqb_eq in E1; lia|].
  destruct (0 <? 1000 / num_steps) eqn:E2; [|apply Z.ltb_ge in E2; lia].
  reflexivity.
Qed.

(** The number of timesteps of a run. *)
Lemma timesteps_length (num_steps : Z) :
  1 <= num_steps <= 1000 ->
  exists ts, timesteps num_steps = Ok ts
    /\ Z.of_nat (List.length ts) = 998 / (1000 / num_steps) + 1.
Proof.
  intros H. destruct (timesteps_eq H) as [E Hs].
  eexists. split; [exact E|].
  rewrite range_up_length by (simpl; lia).
  replace (1000 - 1 + 1000 / num_steps - 1)
    with (998 + 1 * (1000 / num_steps)) by lia.
  rewrite Z.div_add by lia.
  assert (0 <= 998 / (1000 / num_steps)) by (apply Z.div_pos; lia).
  lia.
Qed.

(** When [num_steps] divides 1000 the run has [num_steps] timesteps. *)
Lemma timesteps_length_divisor (num_steps : Z) :
  1 <= num_steps < 1000 -> (num_steps | 1000) ->
  exists ts, timesteps num_steps = Ok ts
    /\ Z.of_nat (List.length ts) = num_steps.
Proof.
  intros H [q Hq].
  destruct (@timesteps_length num_steps) as [ts [E L]]; [lia|].
  exists ts. split; [exact E|]. rewrite L.
  assert (Hs : 1000 / num_steps = q).
  { rewrite Hq. apply Z.div_mul. lia. }
  rewrite Hs.
  assert (2 <= q) by nia.
  assert (998 / q = num_steps - 1); [|lia].
  symmetry. apply Z.div_unique with (r := 998 - q * (num_steps - 1)); nia.
Qed.

(** The run consumes the schedule from its last value to its first. *)
Lemma consumed_rev (ts : list Z) : consumed ts = rev ts.
Proof.
  unfold consumed, enumerate_rev.
  rewrite map_rev. f_equal.
  generalize 0%nat. induction ts as [|t ts IH]; intros n; simpl.
  - reflexivity.
  - f_equal. apply IH.
Qed.

Lemma py_index_in_range (A : Type) (l : list A) (i : Z) :
  0 <= i < Z.of_nat (List.length l) -> exists x, py_index l i = Ok x.
Proof.
  intros H. unfold py_index.
  destruct (i <? 0) eqn:E; [apply Z.ltb_lt in E; lia|]. rewrite E.
  destruct (nth_error l (Z.to_nat i)) eqn:N; [eauto|].
  apply nth_error_None in N. lia.
Qed.

Lemma rmap_total (A B : Type) (f : A -> result B) (l : list A) :
  Forall (fun x => exists y, f x = Ok y) l ->
  exists ys, rmap f l = Ok ys /\ List.length ys = List.length l.
Proof.
  induction 1 as [|x l [y Hy] _ [ys [IH Hl]]]; simpl.
  - eauto.
  - rewrite Hy, IH. simpl. eexists. split; [reflexivity|]. simpl. lia.
Qed.

End ScheduleFacts.

(** ** Tensors *)

Section TensorFacts.
Local Open Scope nat_scope.

Lemma size_app (s1 s2 : list nat) : size (s1 ++ s2) = size s1 * size s2.
Proof.
  induction s1 as [|d s1 IH]; simpl.
  - lia.
  - rewrite IH. lia.
Qed.

Lemma size_rev (s : list nat) : size (rev s) = size s.
Proof.
  induction s as [|d s IH]; simpl.
  - reflexivity.
  - rewrite size_app, IH. simpl. lia.
Qed.

Lemma broadcast_rev_same (s : list nat) : broadcast_rev s s = Some s.
Proof.
  induction s as [|d s IH]; simpl.
  - reflexivity.
  - rewrite Nat.eqb_refl, IH. reflexivity.
Qed.

Lemma broadcast_shape_same (s : list nat) : broadcast_shape s s = Some s.
Proof.
  unfold broadcast_shape. rewrite broadcast_rev_same. simpl.
  now rewrite rev_involutive.
Qed.

Lemma broadcast_rev_nil_r (s : list nat) : broadcast_rev s [] = Some s.
Proof. destruct s; reflexivity. Qed.

Lemma broadcast_shape_last_axis (lead : list nat) (c : nat) :
  broadcast_shape (lead ++ [c]) [c] = Some (lead ++ [c]).
Proof.
  unfold broadcast_shape. rewrite rev_app_distr. simpl.
  rewrite Nat.eqb_refl, broadcast_rev_nil_r. simpl.
  now rewrite rev_involutive.
Qed.

Lemma operand_index_same (s : list nat) (i : nat) :
  i < size s -> operand_index s s i = i.
Proof.
  revert i. induction s as [|d s IH]; intros i Hi; simpl in *.
  - lia.
  - assert (d <> 0) by (intros ->; simpl in Hi; lia).
    assert (i / d < size s) by (apply Nat.Div0.div_lt_upper_bound; lia).
    rewrite IH by assumption.
    destruct (d =? 1) eqn:E.
    + apply Nat.eqb_eq in E. subst d. rewrite Nat.div_1_r. lia.
    + rewrite (Nat.div_mod_eq i d) at 3. lia.
Qed.

Lemma operand_index_nil_r (s : list nat) (i : nat) : operand_index s [] i = 0.
Proof. destruct s; reflexivity. Qed.

Lemma operand_index_last_axis (c : nat) (s : list nat) (i : nat) :
  operand_index (c :: s) [c] i = i mod c.
Proof.
  simpl. rewrite operand_index_nil_r.
  destruct (c =? 1) eqn:E.
  - apply Nat.eqb_eq in E. subst c. rewrite Nat.mod_1_r. lia.
  - lia.
Qed.

Lemma nth_map_seq (A : Type) (g : nat -> A) (n i : nat) (d : A) :
  i < n -> nth i (map g (seq 0 n)) d = g i.
Proof.
  intros Hi. rewrite (nth_indep _ d (g 0)) by now rewrite length_map, length_seq.
  rewrite (map_nth g (seq 0 n) 0 i), seq_nth by assumption. reflexivity.
Qed.

Lemma nth_map_in (A B : Type) (f : A -> B) (l : list A) (i : nat)
  (d : A) (d' : B) :
  i < List.length l -> nth i (map f l) d' = f (nth i l d).
Proof.
  intros Hi. rewrite (nth_indep _ d' (f d)) by now rewrite length_map.
  apply map_nth.
Qed.

(** Two well-formed tensors of one shape with the same elements are
    equal. *)
Lemma tensor_ext (a b : tensor R) :
  shape a = shape b -> wf a -> wf b ->
  (forall i, i < size (shape a) -> nth i (data a) 0%R = nth i (data b) 0%R) ->
  a = b.
Proof.
  destruct a as [sa da], b as [sb db]. unfold wf. simpl.
  intros <- Ha Hb H. f_equal.
  apply (nth_ext _ _ 0%R 0%R); [congruence|].
  intros i Hi. apply H. lia.
Qed.

Lemma tf_reshape_same (A : Type) (t : tensor A) :
  wf t -> tf_reshape t (shape t) = Ok t.
Proof.
  unfold wf, tf_reshape. intros ->. rewrite Nat.eqb_refl.
  now destruct t.
Qed.

Lemma tmap_wf (A B : Type) (f : A -> B) (t : tensor A) :
  wf t -> wf (tmap f t).
Proof. unfold wf. simpl. now rewrite length_map. Qed.

Lemma tmap_nth (f : R -> R) (t : tensor R) (i : nat) :
  wf t -> i < size (shape t) ->
  nth i (data (tmap f t)) 0%R = f (nth i (data t) 0%R).
Proof.
  unfold wf. intros Hwf Hi. simpl. apply nth_map_in. lia.
Qed.

(** An elementwise operation on two tensors of one shape. *)
Lemma tmap2_same_shape (f : R -> R -> R) (a b : tensor R) :
  shape a = shape b ->
  exists r, tmap2 f a b = Ok r /\ shape r = shape a /\ wf r
    /\ forall i, i < size (shape a) ->
         nth i (data r) 0%R = f (nth i (data a) 0%R) (nth i (data b) 0%R).
Proof.
  intros Hs. unfold tmap2. rewrite <- Hs, broadcast_shape_same.
  eexists. split; [reflexivity|]. split; [reflexivity|]. split.
  - unfold wf. simpl. now rewrite length_map, length_seq.
  - intros i Hi. simpl. rewrite nth_map_seq by assumption.
    rewrite operand_index_same by now rewrite size_rev. reflexivity.
Qed.

(** An elementwise operation of a tensor with a vector along its last
    axis. *)
Lemma tmap2_last_axis (f : R -> R -> R) (a v : tensor R) (lead : list nat)
  (c : nat) :
  shape a = lead ++ [c] -> shape v = [c] ->
  exists r, tmap2 f a v = Ok r /\ shape r = shape a /\ wf r
    /\ forall i, i < size (shape a) ->
         nth i (data r) 0%R
         = f (nth i (data a) 0%R) (nth (i mod c) (data v) 0%R).
Proof.
  intros Ha Hv. unfold tmap2. rewrite Ha, Hv, broadcast_shape_last_axis.
  eexists. split; [reflexivity|]. split; [reflexivity|]. split.
  - unfold wf. simpl. now rewrite length_map, length_seq.
  - intros i Hi. simpl. rewrite nth_map_seq by assumption.
    rewrite operand_index_same by now rewrite size_rev.
    rewrite rev_app_distr. simpl rev at 1. simpl app.
    rewrite operand_index_last_axis. reflexivity.
Qed.

Lemma nth_flat_map_blocks (A B : Type) (g : A -> list B) (k : nat)
  (l : list A) (r j : nat) (d : A) (d' : B) :
  (forall x, List.length (g x) = k) -> r < List.length l -> j < k ->
  nth (r * k + j) (flat_map g l) d' = nth j (g (nth r l d)) d'.
Proof.
  intros Hg. revert r.
  induction l as [|x l IH]; intros r Hr Hj; simpl in *.
  - lia.
  - destruct r as [|r].
    + simpl. rewrite app_nth1 by (rewrite Hg; lia). reflexivity.
    + rewrite app_nth2 by (rewrite Hg; simpl; lia).
      rewrite Hg. replace (S r * k + j - k) with (r * k + j) by (simpl; lia).
      apply IH; lia.
Qed.

Lemma length_flat_map_blocks (A B : Type) (g : A -> list B) (k : nat)
  (l : list A) :
  (forall x, List.length (g x) = k) ->
  List.length (flat_map g l) = List.length l * k.
Proof.
  intros Hg. induction l as [|x l IH]; simpl.
  - reflexivity.
  - rewrite length_app, Hg, IH. reflexivity.
Qed.

(** [tf.gather(params, indices, axis=-1)] with a vector of indices: row
    [r], column [j] of the result is row [r], column [indices[j]] of
    [params]. *)
Lemma tf_gather_last_vector (params : tensor R) (lead : list nat)
  (c : nat) (idx : list Z) :
  shape params = lead ++ [c] ->
  Forall (fun i => (0 <= i < Z.of_nat c)%Z) idx ->
  exists g, tf_gather_last params (Tensor [List.length idx] idx) = Ok g
    /\ shape g = lead ++ [List.length idx] /\ wf g
    /\ forall r j, r < size lead -> j < List.length idx ->
         nth (r * List.length idx + j) (data g) 0%R
         = nth (r * c + Z.to_nat (nth j idx 0%Z)) (data params) 0%R.
Proof.
  intros Hs Hidx. unfold tf_gather_last.
  rewrite Hs, rev_app_distr. simpl rev at 1. simpl app. cbn [data shape].
  replace (forallb _ idx) with true.
  2:{ symmetry. apply forallb_forall. intros i Hi.
      rewrite Forall_forall in Hidx. specialize (Hidx i Hi).
      apply andb_true_intro. split; [apply Z.leb_le|apply Z.ltb_lt]; lia. }
  eexists. split; [reflexivity|]. rewrite rev_involutive, size_rev.
  split; [reflexivity|]. split.
  - unfold wf. cbn [data shape].
    rewrite (length_flat_map_blocks _ (k := List.length idx))
      by (intros; apply length_map).
    rewrite length_seq, size_app. simpl. lia.
  - intros r j Hr Hj. cbn [data].
    rewrite (nth_flat_map_blocks _ (k := List.length idx) _ 0%nat)
      by (try (intros; apply length_map); try rewrite length_seq; lia).
    rewrite seq_nth by assumption. simpl.
    rewrite (nth_map_in _ _ 0%Z) by assumption. reflexivity.
Qed.

End TensorFacts.

(** ** The intercepted forward pass *)

Section AttentionFacts.
Local Open Scope nat_scope.

Ltac run_resolve :=
  unfold resolve_weights, refine_weights, use_last_weights, bind, get, lift,
    when, put, ret.

(** Outside the mode [save] a forward pass leaves the control variables
    as they are. *)
Lemma resolve_weights_frame (c : Control) (W : tensor R) :
  cross_attn_mode c <> "save"%string -> snd (resolve_weights W c) = c.
Proof.
  intros Hmode. apply String.eqb_neq in Hmode.
  run_resolve. rewrite Hmode.
  destruct (_ && _); [destruct (rbind _ _)|]; simpl;
    try destruct (if (cross_attn_mode c =? "use_last")%string then _ else _);
    reflexivity.
Qed.

Lemma documented_mode_false (mode : string) :
  documented_mode mode = false ->
  (mode =? "edit")%string = false /\ (mode =? "use_last")%string = false
  /\ (mode =? "save")%string = false.
Proof.
  unfold documented_mode, documented_modes. simpl. intros H.
  repeat (apply orb_false_elim in H; destruct H as [? H]). auto.
Qed.

(** With the initial control variables the layer uses its softmax
    weights. *)
Lemma resolve_weights_initial (W : tensor R) :
  resolve_weights W initial_control = (Ok W, initial_control).
Proof. reflexivity. Qed.


Section WithCollaborators.
Context {collab : Collaborators}.

(** C1 (as amended): a forward pass whose [cross_attn_mode] is none of the
    documented values raises nothing on account of the mode: it leaves the
    control variables as they are and uses the softmax weights, re-weighted
    when [use_prompt_weights] is set, exactly as the mode [unconditional]
    does. *)
Theorem undocumented_mode_passes_through (c : Control) (W : tensor R)
  (self : nat) (inputs : attn_input) :
  documented_mode (cross_attn_mode c) = false ->
  resolve_weights W c = (reweight_weights c W, c)
  /\ fst (resolve_weights W c)
     = fst (resolve_weights W (assign_cross_attn_mode "unconditional" c))
  /\ (use_prompt_weights c = false -> resolve_weights W c = (Ok W, c))
  /\ (use_prompt_weights c = false -> raw_weights self inputs = Ok W ->
      call_attention_edit self inputs c = (attend self W inputs, c)).
Proof.
  intros H. apply documented_mode_false in H. destruct H as (He & Hu & Hs).
  assert (E : resolve_weights W c = (reweight_weights c W, c)).
  { run_resolve. rewrite He, Hu, Hs. simpl. reflexivity. }
  assert (E' : use_prompt_weights c = false ->
               resolve_weights W c = (Ok W, c)).
  { intros Hw. rewrite E. unfold reweight_weights. now rewrite Hw. }
  repeat split; auto.
  - rewrite E. reflexivity.
  - intros Hw Hraw. unfold call_attention_edit, bind, lift.
    rewrite Hraw, (E' Hw). reflexivity.
Qed.

(** C4: after a forward pass in the mode [save], a forward pass in the mode
    [use_last] on inputs of the same shape, with the saved map still in
    [attn_map] and [use_prompt_weights] off, multiplies [v] with the softmax
    weights of the first pass. *)
Theorem save_then_use_last (self : nat) (inputs1 inputs2 : attn_input)
  (W1 W2 : tensor R) (c1 c2 : Control) :
  raw_weights self inputs1 = Ok W1 -> raw_weights self inputs2 = Ok W2 ->
  wf W1 -> shape W2 = shape W1 ->
  cross_attn_mode c1 = "save"%string -> use_prompt_weights c1 = false ->
  cross_attn_mode c2 = "use_last"%string -> use_prompt_weights c2 = false ->
  attn_map c2 = attn_map (snd (call_attention_edit self inputs1 c1)) ->
  call_attention_edit self inputs1 c1
    = (attend self W1 inputs1, assign_attn_map W1 c1)
  /\ resolve_weights W2 c2 = (Ok W1, c2)
  /\ call_attention_edit self inputs2 c2 = (attend self W1 inputs2, c2).
Proof.
  intros Hr1 Hr2 Hwf Hsh Hm1 Hu1 Hm2 Hu2 Hmap.
  assert (E1 : call_attention_edit self inputs1 c1
               = (attend self W1 inputs1, assign_attn_map W1 c1)).
  { unfold call_attention_edit, bind, lift. rewrite Hr1.
    run_resolve. unfold reweight_weights. rewrite Hm1, Hu1. reflexivity. }
  rewrite E1 in Hmap. simpl in Hmap.
  assert (E2 : resolve_weights W2 c2 = (Ok W1, c2)).
  { run_resolve. unfold reweight_weights. rewrite Hm2, Hu2. simpl.
    rewrite Hmap, Hsh, tf_reshape_same by assumption. reflexivity. }
  repeat split; auto.
  unfold call_attention_edit, bind, lift. rewrite Hr2, E2. reflexivity.
Qed.

End WithCollaborators.

(** C6: in the mode [edit] with a mask that is not empty, the weights that
    replace the softmax weights [W] are, element by element,
    [gather(attn_map, prompt_edit_indices, axis=-1) * prompt_edit_mask
     + W * (1 - prompt_edit_mask)], in the shape of [W]; the forward pass
    goes on with them. *)
Theorem edit_blends_cached_and_current (c : Control) (W : tensor R)
  (lead : list nat) (n m : nat) (mask : list R) (idx : list Z) :
  cross_attn_mode c = "edit"%string ->
  prompt_edit_mask c = Tensor [n] mask -> List.length mask = n -> n <> 0 ->
  prompt_edit_indices c = Tensor [n] idx -> List.length idx = n ->
  Forall (fun i => (0 <= i < Z.of_nat m)%Z) idx ->
  shape (attn_map c) = lead ++ [m] -> wf (attn_map c) ->
  shape W = lead ++ [n] -> wf W ->
  exists E,
    refine_weights c W = Ok E /\ shape E = shape W /\ wf E
    /\ (forall r j, r < size lead -> j < n ->
          nth (r * n + j) (data E) 0%R
          = (nth (r * m + Z.to_nat (nth j idx 0%Z)) (data (attn_map c)) 0
             * nth j mask 0
             + nth (r * n + j) (data W) 0 * (1 - nth j mask 0))%R)
    /\ resolve_weights W c = (reweight_weights c E, c).
Proof.
  intros Hmode Hmask Hlm Hn Hidx Hli Hrange Hamap Hwfa HW HwfW.
  subst n.
  destruct (@tf_gather_last_vector (attn_map c) lead m idx Hamap Hrange)
    as (g & Eg & Sg & Wg & Ng).
  rewrite Hli in *.
  destruct (@tmap2_last_axis Rmult g (prompt_edit_mask c) lead
              (List.length mask) Sg)
    as (kept & Ek & Sk & Wk & Nk); [now rewrite Hmask|].
  destruct (@tmap2_last_axis Rmult W
              (tmap (fun v => (1 - v)%R) (prompt_edit_mask c)) lead
              (List.length mask) HW)
    as (fresh & Ef & Sf & Wf & Nf); [simpl; now rewrite Hmask|].
  destruct (@tmap2_same_shape Rplus kept fresh) as (E & EE & SE & WE & NE);
    [congruence|].
  assert (Hrefine : refine_weights c W = Ok E).
  { unfold refine_weights. rewrite Hmode, Hmask, Hidx. unfold tf_size.
    cbn [shape size fold_right]. rewrite Nat.mul_1_r.
    destruct (List.length mask =? 0) eqn:E0;
      [apply Nat.eqb_eq in E0; contradiction|].
    cbn [String.eqb Ascii.eqb Bool.eqb andb negb].
    rewrite Eg. cbn [rbind]. rewrite <- Hmask.
    unfold tmul, tadd. rewrite Ek. cbn [rbind]. rewrite Ef. cbn [rbind].
    rewrite EE. cbn [rbind].
    replace (shape W) with (shape E) by congruence.
    now apply tf_reshape_same. }
  exists E. split; [exact Hrefine|]. split; [congruence|].
  split; [exact WE|]. split.
  - intros r j Hr Hj.
    assert (Hi : r * List.length mask + j < size (lead ++ [List.length mask])).
    { rewrite size_app. simpl. nia. }
    assert (Hmod : (r * List.length mask + j) mod List.length mask = j).
    { rewrite Nat.add_comm, Nat.Div0.mod_add. now apply Nat.mod_small. }
    rewrite NE by (rewrite Sk, Sg; exact Hi).
    rewrite Nk by (rewrite Sg; exact Hi).
    rewrite Nf by (rewrite HW; exact Hi).
    rewrite Hmod, Ng by assumption.
    rewrite Hmask. cbn [tmap data shape].
    rewrite (nth_map_in _ _ 0%R) by assumption. reflexivity.
  - run_resolve. fold (refine_weights c W). rewrite Hrefine, Hmode.
    reflexivity.
Qed.

End AttentionFacts.

(** ** The DDIM step *)

Section StepFacts.
Import StableDiffusion.
Local Open Scope R_scope.

Lemma math_sqrt_ok (x : R) : 0 <= x -> math_sqrt x = Ok (sqrt x).
Proof.
  intros H. unfold math_sqrt. destruct (Rle_dec 0 x); [reflexivity|].
  contradiction.
Qed.

(** C3: for [0 < a_t <= 1] the stepper computes
    [pred_x0 = (x - sqrt(1 - a_t) * e_t) / sqrt(a_t)], and noising it again,
    [sqrt(a_t) * pred_x0 + sqrt(1 - a_t) * e_t], gives back the latent [x];
    this is [_get_x_prev] with [a_prev = a_t]. *)
Theorem ddim_round_trip (x e_t : tensor R) (a_t : R) :
  wf x -> wf e_t -> shape e_t = shape x -> 0 < a_t <= 1 ->
  exists p,
    pred_x0 x e_t a_t = Ok p
    /\ shape p = shape x
    /\ (forall i, (i < size (shape x))%nat ->
          nth i (data p) 0
          = (nth i (data x) 0 - sqrt (1 - a_t) * nth i (data e_t) 0)
            / sqrt a_t)
    /\ x_prev_of p e_t a_t = Ok x
    /\ _get_x_prev x e_t a_t a_t = Ok x.
Proof.
  intros Hx He Hs Ha.
  assert (Hpos : 0 < sqrt a_t) by (apply sqrt_lt_R0; lra).
  destruct (@tmap2_same_shape Rminus x (tmap (Rmult (sqrt (1 - a_t))) e_t))
    as (num & En & Sn & Wn & Nn); [simpl; congruence|].
  set (p := tmap (fun v => v / sqrt a_t) num).
  assert (Ep : pred_x0 x e_t a_t = Ok p).
  { unfold pred_x0. rewrite math_sqrt_ok by lra. cbn [rbind].
    unfold tsub. rewrite En. cbn [rbind].
    rewrite math_sqrt_ok by lra. reflexivity. }
  assert (Np : forall i, (i < size (shape x))%nat ->
             nth i (data p) 0
             = (nth i (data x) 0 - sqrt (1 - a_t) * nth i (data e_t) 0)
               / sqrt a_t).
  { intros i Hi. unfold p. rewrite tmap_nth by (auto; congruence).
    rewrite Nn by assumption.
    rewrite tmap_nth by (auto; congruence). reflexivity. }
  assert (Ex : x_prev_of p e_t a_t = Ok x).
  { unfold x_prev_of. rewrite !math_sqrt_ok by lra. cbn [rbind].
    destruct (@tmap2_same_shape Rplus (tmap (Rmult (sqrt a_t)) p)
                (tmap (Rmult (sqrt (1 - a_t))) e_t))
      as (r & Er & Sr & Wr & Nr); [simpl; congruence|].
    unfold tadd. rewrite Er. f_equal.
    apply tensor_ext; [simpl in Sr; congruence|assumption|assumption|].
    intros i Hi. simpl in Sr. rewrite Sr, Sn in Hi.
    rewrite Nr by (simpl; congruence).
    rewrite tmap_nth by (try apply tmap_wf; simpl; auto; congruence).
    rewrite tmap_nth by (auto; congruence).
    rewrite Np by assumption. field. lra. }
  exists p. split; [exact Ep|]. split; [exact Sn|].
  split; [exact Np|]. split; [exact Ex|].
  unfold _get_x_prev. rewrite Ep. exact Ex.
Qed.

End StepFacts.

(** ** The loops over the submodules *)

Section ModelFacts.

Lemma prepared_submodule_control (sm : Submodule) :
  prepared_submodule sm = true -> is_cross_attention sm = true ->
  exists c, control sm = Some c.
Proof.
  unfold prepared_submodule. intros H Hc. rewrite Hc in H. simpl in H.
  apply andb_prop in H. destruct H as [H _].
  destruct (control sm); [eauto|discriminate].
Qed.

(** In a prepared model a layer is an [attn1] layer or an [attn2] layer,
    not both. *)
Lemma prepared_submodule_suffix (sm : Submodule) :
  prepared_submodule sm = true -> is_cross_attention sm = true ->
  is_attention_with "attn1" sm = negb (is_attention_with "attn2" sm).
Proof.
  unfold prepared_submodule, is_attention_with. intros H Hc.
  rewrite Hc in *. simpl in H. apply andb_prop in H. destruct H as [_ H].
  apply orb_prop in H.
  destruct H as [H|H]; apply String.eqb_eq in H; rewrite H; reflexivity.
Qed.

Lemma apply_where_name (cond : Submodule -> bool) (f : Control -> Control)
  (sm : Submodule) : name (apply_where cond f sm) = name sm.
Proof. unfold apply_where. now destruct (cond sm). Qed.

Lemma apply_where_prepared (cond : Submodule -> bool)
  (f : Control -> Control) (sm : Submodule) :
  prepared_submodule (apply_where cond f sm) = prepared_submodule sm.
Proof.
  unfold apply_where. destruct (cond sm); [|reflexivity].
  unfold prepared_submodule, is_cross_attention. simpl.
  now destruct (control sm).
Qed.

Lemma prepared_map (cond : Submodule -> bool) (f : Control -> Control)
  (m : Model) :
  prepared (map (apply_where cond f) m) = prepared m.
Proof.
  unfold prepared. induction m as [|sm m IH]; simpl.
  - reflexivity.
  - now rewrite apply_where_prepared, IH.
Qed.

(** On a prepared model a loop of [assign]s over attention layers raises
    nothing. *)
Lemma for_each_assign (cond : Submodule -> bool) (f : Control -> Control)
  (m : Model) :
  prepared m = true ->
  (forall sm, cond sm = true -> is_cross_attention sm = true) ->
  for_each (fun sm => if cond sm then assign f sm else Ok sm) m
  = (Ok tt, map (apply_where cond f) m).
Proof.
  intros Hp Hc. induction m as [|sm m IH]; simpl.
  - reflexivity.
  - simpl in Hp. apply andb_prop in Hp. destruct Hp as [Hsm Hm].
    rewrite (IH Hm). clear IH.
    assert (Ea : apply_where cond f sm
                 = if cond sm then mkSubmodule (name sm) (call_overwritten sm)
                                     (option_map f (control sm)) else sm)
      by reflexivity.
    rewrite Ea. clear Ea.
    destruct (cond sm) eqn:E; [|reflexivity].
    destruct (@prepared_submodule_control sm Hsm (Hc _ E)) as [c Ec].
    unfold assign. rewrite Ec. reflexivity.
Qed.

Lemma for_each_ok (body : Submodule -> result Submodule) (m m' : Model) :
  for_each body m = (Ok tt, m') -> Forall2 (fun a b => body a = Ok b) m m'.
Proof.
  revert m'. induction m as [|sm m IH]; intros m' H; simpl in H.
  - injection H as <-. constructor.
  - destruct (body sm) as [sm'|e] eqn:E; [|discriminate].
    destruct (for_each body m) as [r rest] eqn:F.
    injection H as -> <-. constructor; [exact E|]. now apply IH.
Qed.

(** After [reset_initial_tf_variables] every attention layer is in its
    initial state. *)
Lemma reset_neutral (m m' : Model) :
  P2PUtils.reset_initial_tf_variables m = (Ok tt, m') -> neutral m'.
Proof.
  intros H. apply for_each_ok in H. unfold neutral.
  induction H as [|a b m m' Hab _ IH]; constructor; [|exact IH].
  intros Hb. destruct (is_cross_attention a) eqn:Ea.
  - unfold assign in Hab. destruct (control a); [|discriminate].
    injection Hab as <-. reflexivity.
  - injection Hab as <-. congruence.
Qed.

End ModelFacts.

(** ** The methods of the pipeline *)

Section PipelineFacts.
Import StableDiffusion.
Context {collab : Collaborators}.

Lemma on_prompt_to_prompt_model_ready (A : Type) (f : M Model A)
  (p : Pipeline) :
  prompt_to_prompt_ready p = true ->
  on_prompt_to_prompt_model f p = on_model f p.
Proof.
  intros H. unfold on_prompt_to_prompt_model, diffusion_model_prompt_to_prompt,
    bind, get, ret.
  now rewrite H.
Qed.

(** On a prepared pipeline a loop of [assign]s updates the layers it
    selects and nothing else. *)
Lemma on_prompt_to_prompt_model_assign (cond : Submodule -> bool)
  (f : Control -> Control) (p : Pipeline) :
  prompt_to_prompt_ready p = true -> prepared (submodules p) = true ->
  (forall sm, cond sm = true -> is_cross_attention sm = true) ->
  on_prompt_to_prompt_model
    (for_each (fun sm => if cond sm then assign f sm else Ok sm)) p
  = (Ok tt, with_submodules (map (apply_where cond f) (submodules p)) p).
Proof.
  intros Hr Hp Hc. rewrite on_prompt_to_prompt_model_ready by assumption.
  unfold on_model. now rewrite for_each_assign.
Qed.

Lemma is_attention_with_cross (suffix : string) (sm : Submodule) :
  is_attention_with suffix sm = true -> is_cross_attention sm = true.
Proof. unfold is_attention_with. intros H. now apply andb_prop in H. Qed.

Lemma update_cross_attention_mode_prepared (mode suffix : string)
  (p : Pipeline) :
  prompt_to_prompt_ready p = true -> prepared (submodules p) = true ->
  on_prompt_to_prompt_model
    (P2PUtils.update_cross_attention_mode mode suffix) p
  = (Ok tt,
     with_submodules
       (map (apply_where (is_attention_with suffix)
               (assign_cross_attn_mode mode)) (submodules p)) p).
Proof.
  intros. apply on_prompt_to_prompt_model_assign; auto.
  apply is_attention_with_cross.
Qed.

Lemma update_attention_weights_usage_prepared (use : bool) (p : Pipeline) :
  prompt_to_prompt_ready p = true -> prepared (submodules p) = true ->
  on_prompt_to_prompt_model (P2PUtils.update_attention_weights_usage use) p
  = (Ok tt,
     with_submodules
       (map (apply_where (is_attention_with "attn2")
               (assign_use_prompt_weights use)) (submodules p)) p).
Proof.
  intros. apply on_prompt_to_prompt_model_assign; auto.
  apply is_attention_with_cross.
Qed.


Lemma in_window_spec (window : Q * Q) (t_scale : Q) :
  in_window window t_scale = true
  <-> (fst window <= t_scale /\ t_scale <= snd window)%Q.
Proof.
  unfold in_window. rewrite andb_true_iff, !Qle_bool_iff. reflexivity.
Qed.


Ltac update_step :=
  first
    [ rewrite update_cross_attention_mode_prepared
    | rewrite update_attention_weights_usage_prepared ];
  [ | solve [assumption | reflexivity]
    | solve [assumption | cbn [submodules with_submodules];
             rewrite ?prepared_map; assumption] ].

(** The modes for the pass with the edited prompt, submodule by
    submodule. *)
Lemma set_edit_modes_prepared (p : Pipeline) (method : string)
  (self_attn_steps cross_attn_steps : Q * Q) (has_weights : bool)
  (t_scale : Q) :
  prompt_to_prompt_ready p = true -> prepared (submodules p) = true ->
  set_edit_modes method self_attn_steps cross_attn_steps has_weights
    t_scale p
  = (Ok tt,
     with_submodules
       (map (edit_modes_of method self_attn_steps cross_attn_steps
               has_weights t_scale) (submodules p)) p).
Proof.
  intros Hr Hp.
  assert (Hid : with_submodules (submodules p) p = p) by now destruct p.
  unfold set_edit_modes, edit_modes_of, bind, when, ret.
  destruct (in_window cross_attn_steps t_scale),
    (in_window self_attn_steps t_scale),
    (method =? "replace")%string, (method =? "refine")%string,
    ((method =? "reweight")%string || has_weights);
    repeat update_step;
    cbn [submodules with_submodules img_height img_width
           prompt_to_prompt_ready invocations draws];
    rewrite ?map_map; reflexivity.
Qed.

End PipelineFacts.

(** ** The edit windows *)

Section WindowFacts.
Import StableDiffusion.

Lemma edit_modes_of_name (method : string) (s c : Q * Q) (hw : bool)
  (t : Q) (sm : Submodule) :
  name (edit_modes_of method s c hw t sm) = name sm.
Proof.
  unfold edit_modes_of.
  repeat match goal with
         | |- context [if ?b then _ else _] => destruct b
         end;
    now rewrite ?apply_where_name.
Qed.

Lemma is_attention_with_name (suffix : string) (sm sm' : Submodule) :
  name sm' = name sm ->
  is_attention_with suffix sm' = is_attention_with suffix sm.
Proof.
  unfold is_attention_with, is_cross_attention. now intros ->.
Qed.

Lemma is_attention_with_mk (suffix nm : string) (ov : bool)
  (ctl : option Control) :
  is_attention_with suffix (mkSubmodule nm ov ctl)
  = contains "cross_attention" nm && contains suffix (last_component nm).
Proof. reflexivity. Qed.




Section WithCollaborators.
Context {collab : Collaborators}.



End WithCollaborators.
End WindowFacts.

(** ** Whole runs *)

Section RunFacts.
Import StableDiffusion.
Context {collab : Collaborators}.

Lemma bind_ok_inv (S A B : Type) (m : M S A) (k : A -> M S B) (s s' : S)
  (b : B) :
  bind m k s = (Ok b, s') ->
  exists a s1, m s = (Ok a, s1) /\ k a s1 = (Ok b, s').
Proof.
  unfold bind. destruct (m s) as [[a|e] s1]; [eauto|discriminate].
Qed.

Lemma on_prompt_to_prompt_model_reset (p p' : Pipeline) :
  on_prompt_to_prompt_model P2PUtils.reset_initial_tf_variables p
  = (Ok tt, p') ->
  neutral (submodules p').
Proof.
  intros H. unfold on_prompt_to_prompt_model in H.
  apply bind_ok_inv in H. destruct H as (_ & p1 & _ & H).
  unfold on_model in H.
  destruct (P2PUtils.reset_initial_tf_variables (submodules p1))
    as [r m] eqn:E.
  injection H as -> <-. simpl. now apply reset_neutral in E.
Qed.

Ltac bind_step H :=
  let a := fresh "a" in
  let s := fresh "s" in
  let E := fresh "E" in
  apply bind_ok_inv in H; destruct H as (a & s & E & H).

(** C7: when a run of [prompt_to_prompt] completes, every intercepted
    attention layer has the initial values in its control variables: an
    empty mode, [use_prompt_weights] off, and empty [attn_map],
    [prompt_edit_mask], [prompt_edit_indices] and [prompt_weights]; a later
    forward pass of such a layer uses its softmax weights as they are. *)
Theorem prompt_to_prompt_resets_layers (prompt prompt_edit method : string)
  (self_attn_steps cross_attn_steps : steps)
  (attn_edit_weights : option (tensor R)) (negative_prompt : option string)
  (num_steps : Z) (scale : R) (batch_size : nat)
  (diffusion_noise : option (tensor R)) (seed : option Z)
  (p p' : Pipeline) (img : tensor Z) :
  prompt_to_prompt prompt prompt_edit method self_attn_steps cross_attn_steps
    attn_edit_weights negative_prompt num_steps scale batch_size
    diffusion_noise seed p = (Ok img, p') ->
  Forall
    (fun sm =>
       is_cross_attention sm = true ->
       control sm = Some initial_control
       /\ forall W, resolve_weights W initial_control
                    = (Ok W, initial_control))
    (submodules p').
Proof.
  intros H.
  assert (N : neutral (submodules p')).
  { unfold prompt_to_prompt in H.
    destruct (is_some diffusion_noise && is_some seed); [discriminate|].
    destruct (negb _); [discriminate|].
    bind_step H. destruct a; [discriminate|].
    repeat first
      [ bind_step H
      | match type of H with
        | (let (_, _) := ?x in _) _ = _ => destruct x
        end ].
    injection H as _ <-.
    match goal with
    | E : on_prompt_to_prompt_model P2PUtils.reset_initial_tf_variables _
          = (Ok ?u, _) |- _ =>
        destruct u; now apply on_prompt_to_prompt_model_reset in E
    end. }
  unfold neutral in N. eapply Forall_impl; [|exact N].
  intros sm Hsm Hc. split; [now apply Hsm|].
  intros W. apply resolve_weights_initial.
Qed.

(** *** Invalid arguments *)

(** [diffusion_noise] and [seed] together are a [ValueError], raised
    before anything else is done. *)
Lemma generate_image_noise_and_seed (encoded_text : tensor R)
  (negative_prompt : option string) (batch_size : nat) (num_steps : Z)
  (scale : R) (noise : tensor R) (seed : Z) (p : Pipeline) :
  generate_image encoded_text negative_prompt batch_size num_steps scale
    (Some noise) (Some seed) p = (Raise ValueError, p).
Proof. reflexivity. Qed.

Lemma prompt_to_prompt_noise_and_seed (prompt prompt_edit method : string)
  (self_attn_steps cross_attn_steps : steps)
  (attn_edit_weights : option (tensor R)) (negative_prompt : option string)
  (num_steps : Z) (scale : R) (batch_size : nat) (noise : tensor R)
  (seed : Z) (p : Pipeline) :
  prompt_to_prompt prompt prompt_edit method self_attn_steps cross_attn_steps
    attn_edit_weights negative_prompt num_steps scale batch_size
    (Some noise) (Some seed) p = (Raise ValueError, p).
Proof. reflexivity. Qed.

Lemma inpaint_noise_and_seed (prompt : string) (image mask : tensor R)
  (negative_prompt : option string) (num_resamples batch_size : nat)
  (num_steps : Z) (scale : R) (noise : tensor R) (seed : Z) (p : Pipeline) :
  inpaint prompt image mask negative_prompt num_resamples batch_size
    num_steps scale (Some noise) (Some seed) p = (Raise ValueError, p).
Proof. reflexivity. Qed.

(** A prompt of more than 77 tokens is a [ValueError] of [encode_text],
    raised before the text encoder runs; one of 77 tokens is passed on. *)
Lemma encode_text_too_long (prompt : string) (p : Pipeline) :
  (77 < List.length (tokenizer_encode prompt))%nat ->
  encode_text prompt p = (Raise ValueError, p).
Proof.
  intros H. unfold encode_text.
  destruct (Nat.ltb_spec MAX_PROMPT_LENGTH
              (List.length (tokenizer_encode prompt))) as [_|H'];
    [reflexivity|].
  unfold MAX_PROMPT_LENGTH in H'. lia.
Qed.

Lemma encode_text_fits (prompt : string) (p : Pipeline) :
  (List.length (tokenizer_encode prompt) <= 77)%nat ->
  encode_text prompt p
  = (text_encoder_predict
       (Tensor [1%nat; 77%nat]
          (tokenizer_encode prompt
           ++ repeat 49407%Z (77 - List.length (tokenizer_encode prompt))))
       _get_pos_ids,
     mkPipeline (img_height p) (img_width p) (submodules p)
       (prompt_to_prompt_ready p) (TextEncoderRun :: invocations p)
       (draws p)).
Proof.
  intros H. unfold encode_text.
  destruct (Nat.ltb_spec MAX_PROMPT_LENGTH
              (List.length (tokenizer_encode prompt))) as [H'|_].
  { unfold MAX_PROMPT_LENGTH in H'. lia. }
  unfold bind, invoke, lift. unfold MAX_PROMPT_LENGTH.
  rewrite length_app, repeat_length.
  replace (List.length (tokenizer_encode prompt)
           + (77 - List.length (tokenizer_encode prompt)))%nat
    with 77%nat by lia.
  reflexivity.
Qed.

(** A method other than [refine], [replace] and [reweight] is a
    [ValueError]. *)
Lemma prompt_to_prompt_unknown_method (prompt prompt_edit method : string)
  (self_attn_steps cross_attn_steps : steps)
  (attn_edit_weights : option (tensor R)) (negative_prompt : option string)
  (num_steps : Z) (scale : R) (batch_size : nat)
  (diffusion_noise : option (tensor R)) (seed : option Z) (p : Pipeline) :
  method <> "refine"%string -> method <> "replace"%string ->
  method <> "reweight"%string ->
  prompt_to_prompt prompt prompt_edit method self_attn_steps cross_attn_steps
    attn_edit_weights negative_prompt num_steps scale batch_size
    diffusion_noise seed p = (Raise ValueError, p).
Proof.
  intros H1 H2 H3. apply String.eqb_neq in H1, H2, H3.
  unfold prompt_to_prompt. cbn [existsb]. rewrite H1, H2, H3. simpl.
  now destruct (is_some diffusion_noise && is_some seed).
Qed.

(** [reweight] with an empty array of weights is a [ValueError]. *)
Lemma prompt_to_prompt_reweight_empty (prompt prompt_edit : string)
  (self_attn_steps cross_attn_steps : steps) (weights : tensor R)
  (negative_prompt : option string) (num_steps : Z) (scale : R)
  (batch_size : nat) (diffusion_noise : option (tensor R))
  (seed : option Z) (p : Pipeline) :
  tf_size weights = 0%nat ->
  prompt_to_prompt prompt prompt_edit "reweight" self_attn_steps
    cross_attn_steps (Some weights) negative_prompt num_steps scale
    batch_size diffusion_noise seed p = (Raise ValueError, p).
Proof.
  intros H. unfold prompt_to_prompt. simpl. unfold bind, lift. simpl.
  rewrite H. simpl.
  now destruct (is_some diffusion_noise && is_some seed).
Qed.

(** C9 (the failing input): [reweight] with [attn_edit_weights=None] ends
    in an [AttributeError], not in the [ValueError] whose message names
    [None]; nothing has been computed by then. *)
Theorem prompt_to_prompt_reweight_none (prompt prompt_edit : string)
  (self_attn_steps cross_attn_steps : steps)
  (negative_prompt : option string) (num_steps : Z) (scale : R)
  (batch_size : nat) (seed : option Z) (p : Pipeline) :
  prompt_to_prompt prompt prompt_edit "reweight" self_attn_steps
    cross_attn_steps None negative_prompt num_steps scale batch_size None
    seed p = (Raise AttributeError, p).
Proof. reflexivity. Qed.

End RunFacts.

(** ** The schedule of a run *)

Section ScheduleClaims.
Import Schedule.
Local Open Scope Z_scope.

Lemma Ok_inj (A : Type) (a b : A) : Ok a = Ok b -> a = b.
Proof. intros H. now injection H. Qed.

Lemma removelast_cons_length (A : Type) (a : A) (l : list A) :
  List.length (removelast (a :: l)) = List.length l.
Proof.
  revert a. induction l as [|b l IH]; intros a.
  - reflexivity.
  - change (removelast (a :: b :: l)) with (a :: removelast (b :: l)).
    cbn [List.length]. f_equal. apply IH.
Qed.

(** C2 (the failing input): for [num_steps = 7] the schedule
    [range(1, 1000, 1000 // 7)] has eight values, evenly spaced by 142,
    consumed from the last to the first. *)
Theorem timesteps_of_seven_steps :
  timesteps 7 = Ok [1; 143; 285; 427; 569; 711; 853; 995]
  /\ consumed [1; 143; 285; 427; 569; 711; 853; 995]
     = [995; 853; 711; 569; 427; 285; 143; 1]
  /\ List.length [1; 143; 285; 427; 569; 711; 853; 995] = 8%nat.
Proof. repeat split. Qed.

(** C5: for [num_steps] in [1, 1000) the schedule is strictly increasing
    before it is reversed, and [alphas_prev[0]] is 1.0. *)
Theorem timesteps_increasing_and_alphas_prev_head (table : list R)
  (num_steps : Z) :
  List.length table = 1000%nat -> 1 <= num_steps < 1000 ->
  exists ts alphas alphas_prev,
    timesteps num_steps = Ok ts
    /\ StronglySorted Z.lt ts
    /\ _get_initial_alphas table ts = Ok (alphas, alphas_prev)
    /\ nth_error alphas_prev 0 = Some 1%R
    /\ List.length alphas_prev = List.length ts.
Proof.
  intros Htable Hn.
  destruct (@timesteps_eq num_steps) as [E Hs]; [lia|].
  destruct (@timesteps_length num_steps) as (ts & E' & L); [lia|].
  rewrite E in E'. apply Ok_inj in E'.
  assert (Hb : Forall (fun t => exists a, py_index table t = Ok a) ts).
  { rewrite <- E'. apply Forall_forall. intros t Ht.
    apply range_up_bounds in Ht; [|exact Hs].
    apply py_index_in_range. lia. }
  assert (Hi : StronglySorted Z.lt ts)
    by (rewrite <- E'; now apply range_up_increasing).
  rewrite E' in E. clear E'.
  destruct (@rmap_total _ _ (py_index table) ts Hb) as (alphas & Ea & La).
  exists ts, alphas, (1%R :: removelast alphas).
  split; [exact E|]. split; [exact Hi|].
  split; [unfold _get_initial_alphas; now rewrite Ea|].
  split; [reflexivity|].
  assert (0 <= 998 / (1000 / num_steps)) by (apply Z.div_pos; lia).
  destruct alphas as [|a alphas]; cbn [List.length] in *; [lia|].
  rewrite removelast_cons_length. lia.
Qed.

End ScheduleClaims.

(** ** The statements at concrete inputs *)

Section Instances.
Import StableDiffusion.
Import Demo.
Local Open Scope R_scope.
Local Open Scope string_scope.

(** C1, as the claim states it, fails: with the mode ["blend"], which is
    none of the documented values, the forward pass raises nothing and goes
    on with the softmax weights. *)
Lemma undocumented_mode_raises_nothing :
  documented_mode "blend" = false
  /\ resolve_weights (Tensor [1%nat; 2%nat] [1 / 4; 3 / 4])
       (assign_cross_attn_mode "blend" initial_control)
     = (Ok (Tensor [1%nat; 2%nat] [1 / 4; 3 / 4]),
        assign_cross_attn_mode "blend" initial_control)
  /\ call_attention_edit 1 (Tensor [1%nat; 2%nat] [1 / 4; 3 / 4], None)
       (assign_cross_attn_mode "blend" initial_control)
     = (Ok (Tensor [1%nat; 2%nat] [1 / 4; 3 / 4]),
        assign_cross_attn_mode "blend" initial_control).
Proof. repeat split. Qed.

Lemma undocumented_mode_passes_through_witness :
  documented_mode "blend" = false
  /\ resolve_weights (Tensor [1%nat; 2%nat] [1 / 4; 3 / 4])
       (assign_cross_attn_mode "blend" initial_control)
     = (Ok (Tensor [1%nat; 2%nat] [1 / 4; 3 / 4]),
        assign_cross_attn_mode "blend" initial_control).
Proof.
  split; [reflexivity|].
  destruct (@undocumented_mode_passes_through collaborators
              (assign_cross_attn_mode "blend" initial_control)
              (Tensor [1%nat; 2%nat] [1 / 4; 3 / 4]) 1%nat
              (Tensor [1%nat; 2%nat] [1 / 4; 3 / 4], None) eq_refl)
    as (_ & _ & H & _).
  exact (H eq_refl).
Defined.

Lemma ddim_round_trip_witness :
  0 < 1 / 4 <= 1
  /\ _get_x_prev (Tensor [2%nat] [1; 2]) (Tensor [2%nat] [3; 4]) (1 / 4)
       (1 / 4)
     = Ok (Tensor [2%nat] [1; 2]).
Proof.
  assert (Ha : 0 < 1 / 4 <= 1) by lra.
  split; [exact Ha|].
  destruct (@ddim_round_trip (Tensor [2%nat] [1; 2]) (Tensor [2%nat] [3; 4])
              (1 / 4) eq_refl eq_refl eq_refl Ha)
    as (p & _ & _ & _ & _ & H).
  exact H.
Defined.

Lemma save_then_use_last_witness :
  let W1 := Tensor [1%nat; 2%nat] [1 / 4; 3 / 4] in
  let W2 := Tensor [1%nat; 2%nat] [1 / 2; 1 / 2] in
  let c1 := assign_cross_attn_mode "save" initial_control in
  let c2 :=
    assign_cross_attn_mode "use_last"
      (snd (call_attention_edit 1 (W1, None) c1)) in
  attn_map c2 = W1
  /\ call_attention_edit 1 (W2, None) c2 = (attend 1 W1 (W2, None), c2).
Proof.
  intros W1 W2 c1 c2.
  split; [reflexivity|].
  destruct (@save_then_use_last collaborators 1%nat (W1, None) (W2, None)
              W1 W2 c1 c2 eq_refl eq_refl eq_refl eq_refl eq_refl eq_refl
              eq_refl eq_refl eq_refl)
    as (_ & _ & H).
  exact H.
Defined.

Lemma timesteps_increasing_and_alphas_prev_head_witness :
  List.length (repeat (1 / 2) 1000) = 1000%nat
  /\ (1 <= 50 < 1000)%Z
  /\ exists ts alphas alphas_prev,
       Schedule.timesteps 50 = Ok ts
       /\ StronglySorted Z.lt ts
       /\ Schedule._get_initial_alphas (repeat (1 / 2) 1000) ts
          = Ok (alphas, alphas_prev)
       /\ nth_error alphas_prev 0 = Some 1
       /\ List.length alphas_prev = List.length ts.
Proof.
  assert (Hl : List.length (repeat (1 / 2) 1000) = 1000%nat)
    by apply repeat_length.
  assert (Hn : (1 <= 50 < 1000)%Z) by lia.
  split; [exact Hl|]. split; [exact Hn|].
  exact (@timesteps_increasing_and_alphas_prev_head (repeat (1 / 2) 1000)
           50%Z Hl Hn).
Defined.

Lemma edit_blends_cached_and_current_witness :
  let c :=
    mkControl "edit" false (Tensor [1%nat; 2%nat] [1 / 4; 3 / 4])
      (Tensor [2%nat] [1; 0]) (Tensor [2%nat] [1%Z; 0%Z]) empty_tensor in
  let W := Tensor [1%nat; 2%nat] [1 / 2; 1 / 2] in
  exists E,
    resolve_weights W c = (Ok E, c)
    /\ shape E = [1%nat; 2%nat]
    /\ nth 0 (data E) 0 = 3 / 4 * 1 + 1 / 2 * (1 - 1)
    /\ nth 1 (data E) 0 = 1 / 4 * 0 + 1 / 2 * (1 - 0).
Proof.
  intros c W.
  assert (Hidx : Forall (fun i => (0 <= i < Z.of_nat 2)%Z) [1%Z; 0%Z])
    by (repeat constructor; simpl; lia).
  destruct (@edit_blends_cached_and_current c W [1%nat] 2%nat 2%nat [1; 0]
              [1%Z; 0%Z] eq_refl eq_refl eq_refl (Nat.neq_succ_0 1) eq_refl
              eq_refl Hidx eq_refl eq_refl eq_refl eq_refl)
    as (E & _ & HS & _ & HN & HR).
  exists E. split; [exact HR|]. split; [exact HS|]. split.
  - exact (HN 0%nat 0%nat (Nat.lt_0_succ 0) (Nat.lt_0_succ 1)).
  - exact (HN 0%nat 1%nat (Nat.lt_0_succ 0) (Nat.lt_succ_diag_r 1)).
Defined.




Ltac run_pipeline :=
  cbv -[Rplus Rmult Rminus Rdiv Rinv Ropp sqrt exp cos sin ln IZR INR
        Int_part Rmin Rmax math_sqrt Rle_dec].

(** A run of one step with the method [replace] completes on the demo
    pipeline. *)
Lemma prompt_to_prompt_completes :
  exists img p',
    prompt_to_prompt "a bowl of apples" "a bowl of pears" "replace"
      (StepsFloat (2 # 10)) (StepsFloat (6 # 10)) (Some empty_tensor) None
      1 (15 / 2) 1 None (Some 7%Z) (fresh 8 8)
    = (Ok img, p').
Proof.
  do 2 eexists. run_pipeline.
  repeat (match goal with
          | |- context [math_sqrt ?x] => rewrite (@math_sqrt_ok x) by lra
          end; run_pipeline).
  reflexivity.
Qed.

Lemma prompt_to_prompt_resets_layers_witness :
  exists img p',
    prompt_to_prompt "a bowl of apples" "a bowl of pears" "replace"
      (StepsFloat (2 # 10)) (StepsFloat (6 # 10)) (Some empty_tensor) None
      1 (15 / 2) 1 None (Some 7%Z) (fresh 8 8)
    = (Ok img, p')
    /\ Forall
         (fun sm =>
            is_cross_attention sm = true ->
            control sm = Some initial_control
            /\ forall W, resolve_weights W initial_control
                         = (Ok W, initial_control))
         (submodules p').
Proof.
  destruct prompt_to_prompt_completes as (img & p' & H).
  exists img, p'. split; [exact H|].
  exact (@prompt_to_prompt_resets_layers collaborators "a bowl of apples"
           "a bowl of pears" "replace" (StepsFloat (2 # 10))
           (StepsFloat (6 # 10)) (Some empty_tensor) None 1%Z (15 / 2) 1%nat
           None (Some 7%Z) (fresh 8 8) p' img H).
Defined.

End Instances.

(** * Further properties of the two files *)

From Stdlib Require Import Psatz.

(** ** The schedule and the edit windows *)

Section ScheduleExtras.
Import Schedule StableDiffusion.
Local Open Scope Z_scope.

(** [num_steps = 0] is a division by zero, and a [num_steps] above 1000
    makes the stride [1000 // num_steps] zero, which [tf.range] refuses. *)
Theorem timesteps_invalid_num_steps :
  timesteps 0 = Raise ZeroDivisionError
  /\ forall num_steps, 1000 < num_steps ->
       timesteps num_steps = Raise InvalidArgumentError.
Proof.
  split; [reflexivity|].
  intros n Hn. unfold timesteps, tf_range.
  destruct (n =? 0) eqn:E; [apply Z.eqb_eq in E; lia|].
  rewrite Z.div_small by lia. reflexivity.
Qed.

(** A run never does fewer steps than asked for: for [num_steps] in
    [1, 1000) the schedule starts at 1, stays below 1000, advances by
    [1000 // num_steps], and has at least [num_steps] values. *)
Theorem timesteps_at_least_num_steps (num_steps : Z) :
  1 <= num_steps < 1000 ->
  exists ts,
    timesteps num_steps = Ok ts
    /\ num_steps <= Z.of_nat (List.length ts)
    /\ nth_error ts 0 = Some 1
    /\ Forall (fun t => 1 <= t <= 999) ts
    /\ forall i t, nth_error ts i = Some t ->
         t = 1 + Z.of_nat i * (1000 / num_steps).
Proof.
  intros Hn.
  destruct (@timesteps_eq num_steps) as [E Hs]; [lia|].
  destruct (@timesteps_length num_steps) as (ts & E' & L); [lia|].
  assert (Ets : range_up 999 1 1000 (1000 / num_steps) = ts).
  { rewrite E in E'. revert E'. generalize (range_up 999 1 1000 (1000 / num_steps)).
    intros l H. now injection H. }
  exists ts. split; [exact E'|]. split.
  - rewrite L.
    assert (num_steps - 1 <= 998 / (1000 / num_steps)); [|lia].
    apply Z.div_le_lower_bound; [exact Hs|].
    pose proof (Z.mul_div_le 1000 num_steps ltac:(lia)) as Hm.
    revert Hm Hs. generalize (1000 / num_steps). intros s Hm Hs.
    destruct (Z.eq_dec s 1) as [->|Hne]; [lia|].
    assert (2 <= s) by lia.
    apply Z.le_trans with (num_steps * s - s); [|lia].
    apply Z.eq_le_incl. ring.
  - assert (Hb : Forall (fun t => 1 <= t <= 999) ts).
    { rewrite <- Ets. apply Forall_forall. intros t Ht.
      apply range_up_bounds in Ht; lia. }
    assert (Hnth : forall i t, nth_error ts i = Some t ->
                     t = 1 + Z.of_nat i * (1000 / num_steps)).
    { rewrite <- Ets. intros i t. apply range_up_nth. }
    split; [|split; assumption].
    destruct ts as [|t ts]; [simpl in L; 
      assert (0 <= 998 / (1000 / num_steps)) by (apply Z.div_pos; lia); lia|].
    simpl. f_equal. rewrite (Hnth 0%nat t eq_refl). lia.
Qed.

Lemma timesteps_at_least_num_steps_witness :
  (1 <= 7 < 1000)
  /\ exists ts, timesteps 7 = Ok ts /\ 7 <= Z.of_nat (List.length ts).
Proof.
  assert (H : 1 <= 7 < 1000) by lia.
  split; [exact H|].
  destruct (@timesteps_at_least_num_steps 7 H) as (ts & E & L & _).
  exists ts. split; assumption.
Defined.

(** The timesteps of a schedule lie in [1, 999] whatever [num_steps] was. *)
Lemma timesteps_bounds (num_steps : Z) (ts : list Z) (t : Z) :
  timesteps num_steps = Ok ts -> In t ts -> 1 <= t <= 999.
Proof.
  unfold timesteps, tf_range. intros H Hin.
  destruct (num_steps =? 0); [discriminate|].
  destruct (1000 / num_steps =? 0); [discriminate|].
  destruct (0 <? 1000 / num_steps) eqn:E.
  - apply Z.ltb_lt in E. cbn [Z.leb Z.compare] in H.
    assert (Hts : range_up (Z.to_nat (1000 - 1)) 1 1000 (1000 / num_steps) = ts).
    { revert H. generalize (range_up (Z.to_nat (1000 - 1)) 1 1000 (1000 / num_steps)).
      intros l H. now injection H. }
    rewrite <- Hts in Hin. apply range_up_bounds in Hin; lia.
  - discriminate.
Qed.

Local Open Scope Q_scope.

Lemma t_scale_of_eq (timestep : Z) :
  t_scale_of timestep = 1 - inject_Z timestep * (1 # 1000).
Proof. reflexivity. Qed.


(** During a run [t_scale] stays strictly between 0 and 1, so the float
    [0.0] for a window keeps every step of every run outside of it. *)
Theorem zero_window_is_never_entered (num_steps : Z) (ts : list Z)
  (timestep : Z) :
  Schedule.timesteps num_steps = Ok ts -> In timestep ts ->
  0 < t_scale_of timestep /\ t_scale_of timestep < 1
  /\ in_window (as_window (StepsFloat 0)) (t_scale_of timestep) = false.
Proof.
  intros H Hin. pose proof (@timesteps_bounds num_steps ts timestep H Hin) as [Hlo Hhi].
  assert (B1 : inject_Z 1 <= inject_Z timestep)
    by (rewrite <- Zle_Qle; exact Hlo).
  assert (B2 : inject_Z timestep <= inject_Z 999)
    by (rewrite <- Zle_Qle; exact Hhi).
  assert (I1 : inject_Z 1 == 1) by reflexivity.
  assert (I2 : inject_Z 999 == 999) by reflexivity.
  assert (P : 0 < t_scale_of timestep) by (rewrite t_scale_of_eq; lra).
  split; [exact P|]. split; [rewrite t_scale_of_eq; lra|].
  destruct (in_window (as_window (StepsFloat 0)) (t_scale_of timestep))
    eqn:E; [|reflexivity].
  apply in_window_spec in E. cbn [as_window fst snd] in E. lra.
Qed.

Lemma zero_window_is_never_entered_witness :
  Schedule.timesteps 1 = Ok [1%Z]
  /\ In 1%Z [1%Z]
  /\ in_window (as_window (StepsFloat 0)) (t_scale_of 1) = false.
Proof.
  assert (H : Schedule.timesteps 1 = Ok [1%Z]) by reflexivity.
  assert (Hin : In 1%Z [1%Z]) by (left; reflexivity).
  split; [exact H|]. split; [exact Hin|].
  destruct (@zero_window_is_never_entered 1%Z [1%Z] 1%Z H Hin)
    as (_ & _ & E).
  exact E.
Defined.

End ScheduleExtras.

(** ** The step and the guidance *)

Section StepExtras.
Import StableDiffusion.
Local Open Scope R_scope.

(** The predicted clean latent, element by element. *)
Lemma pred_x0_elements (x e_t : tensor R) (a_t : R) :
  shape e_t = shape x -> 0 < a_t <= 1 ->
  exists p,
    pred_x0 x e_t a_t = Ok p /\ shape p = shape x /\ wf p
    /\ forall i, (i < size (shape x))%nat ->
         nth i (data p) 0
         = (nth i (data x) 0
            - nth i (data (tmap (Rmult (sqrt (1 - a_t))) e_t)) 0)
           / sqrt a_t.
Proof.
  intros Hs Ha.
  destruct (@tmap2_same_shape Rminus x (tmap (Rmult (sqrt (1 - a_t))) e_t))
    as (num & En & Sn & Wn & Nn); [simpl; congruence|].
  exists (tmap (fun v => v / sqrt a_t) num).
  split.
  { unfold pred_x0. rewrite math_sqrt_ok by lra. cbn [rbind].
    unfold tsub. rewrite En. cbn [rbind].
    rewrite math_sqrt_ok by lra. reflexivity. }
  split; [exact Sn|]. split; [now apply tmap_wf|].
  intros i Hi. rewrite tmap_nth by (auto; congruence).
  rewrite Nn by assumption. reflexivity.
Qed.

(** With [a_prev = 1.0], as in the last step of every run
    ([alphas_prev[0]]), [_get_x_prev] returns the predicted clean latent
    [(x - sqrt(1 - a_t) * e_t) / sqrt(a_t)]. *)
Theorem last_step_returns_pred_x0 (x e_t : tensor R) (a_t : R) :
  wf e_t -> shape e_t = shape x -> 0 < a_t <= 1 ->
  exists p,
    pred_x0 x e_t a_t = Ok p /\ _get_x_prev x e_t a_t 1 = Ok p.
Proof.
  intros He Hs Ha.
  destruct (@pred_x0_elements x e_t a_t Hs Ha) as (p & Ep & Sp & Wp & _).
  exists p. split; [exact Ep|].
  unfold _get_x_prev. rewrite Ep. cbn [rbind]. unfold x_prev_of.
  rewrite !math_sqrt_ok by lra. cbn [rbind].
  destruct (@tmap2_same_shape Rplus (tmap (Rmult (sqrt 1)) p)
              (tmap (Rmult (sqrt (1 - 1))) e_t))
    as (r & Er & Sr & Wr & Nr); [simpl; congruence|].
  unfold tadd. rewrite Er. f_equal.
  apply tensor_ext; [simpl in Sr; congruence|assumption|assumption|].
  intros i Hi. simpl in Sr. rewrite Sr in Hi.
  rewrite Nr by (simpl; exact Hi).
  rewrite tmap_nth by (auto; congruence).
  rewrite tmap_nth by (auto; congruence).
  replace (1 - 1) with 0 by lra. rewrite sqrt_1, sqrt_0. lra.
Qed.

Lemma last_step_returns_pred_x0_witness :
  0 < 1 / 4 <= 1
  /\ exists p,
       pred_x0 (Tensor [2%nat] [1; 2]) (Tensor [2%nat] [3; 4]) (1 / 4) = Ok p
       /\ _get_x_prev (Tensor [2%nat] [1; 2]) (Tensor [2%nat] [3; 4]) (1 / 4)
            1 = Ok p.
Proof.
  assert (Ha : 0 < 1 / 4 <= 1) by lra.
  split; [exact Ha|].
  exact (@last_step_returns_pred_x0 (Tensor [2%nat] [1; 2])
           (Tensor [2%nat] [3; 4]) (1 / 4) eq_refl eq_refl Ha).
Defined.

Lemma tmap2_comm (f g : R -> R -> R) (a b : tensor R) :
  (forall u v, f u v = g v u) -> shape a = shape b ->
  tmap2 f a b = tmap2 g b a.
Proof.
  intros Hfg Hs. unfold tmap2. rewrite Hs.
  destruct (broadcast_shape (shape b) (shape b)); [|reflexivity].
  f_equal. f_equal. apply map_ext. intros i. apply Hfg.
Qed.

(** The step that [generate_image] and [inpaint] write out is the step of
    [_get_x_prev], errors included, on latents of one shape. *)
Theorem inline_step_is_get_x_prev (latent_prev latent : tensor R)
  (a_t a_prev : R) :
  shape latent_prev = shape latent ->
  inline_step latent_prev latent a_t a_prev
  = _get_x_prev latent_prev latent a_t a_prev.
Proof.
  intros Hs. unfold inline_step, _get_x_prev, pred_x0, x_prev_of.
  destruct (math_sqrt (1 - a_t)) as [s|e]; [|reflexivity]. cbn [rbind].
  destruct (tsub latent_prev (tmap (Rmult s) latent)) as [num|e] eqn:En;
    [|reflexivity].
  cbn [rbind].
  destruct (math_sqrt a_t) as [s2|e]; [|reflexivity]. cbn [rbind].
  destruct (math_sqrt (1 - a_prev)) as [s3|e]; [|reflexivity]. cbn [rbind].
  destruct (math_sqrt a_prev) as [s4|e]; [|reflexivity]. cbn [rbind].
  assert (Sn : shape num = shape latent).
  { unfold tsub, tmap2 in En. cbn [tmap shape] in En. rewrite Hs in En.
    rewrite broadcast_shape_same in En. injection En as <-. reflexivity. }
  unfold tadd.
  rewrite (@tmap2_comm Rplus Rplus (tmap (fun v => v * s3) latent)
             (tmap (Rmult s4) (tmap (fun v => v / s2) num)))
    by (try (intros; apply Rplus_comm); simpl; congruence).
  f_equal. unfold tmap. f_equal. apply map_ext. intros v. apply Rmult_comm.
Qed.

Lemma inline_step_is_get_x_prev_witness :
  inline_step (Tensor [2%nat] [1; 2]) (Tensor [2%nat] [3; 4]) (1 / 4) (1 / 2)
  = _get_x_prev (Tensor [2%nat] [1; 2]) (Tensor [2%nat] [3; 4]) (1 / 4)
      (1 / 2).
Proof.
  exact (@inline_step_is_get_x_prev (Tensor [2%nat] [1; 2])
           (Tensor [2%nat] [3; 4]) (1 / 4) (1 / 2) eq_refl).
Defined.

(** Classifier-free guidance with the scale 1 is the conditional
    prediction, with the scale 0 the unconditional one. *)
Theorem guidance_scale_one_and_zero (unconditional_latent latent : tensor R) :
  wf unconditional_latent -> wf latent ->
  shape latent = shape unconditional_latent ->
  guidance unconditional_latent latent 1 = Ok latent
  /\ guidance unconditional_latent latent 0 = Ok unconditional_latent.
Proof.
  intros Hu Hl Hs. unfold guidance, tsub, tadd.
  destruct (@tmap2_same_shape Rminus latent unconditional_latent Hs)
    as (d & Ed & Sd & Wd & Nd).
  rewrite Ed. cbn [rbind].
  split.
  - destruct (@tmap2_same_shape Rplus unconditional_latent (tmap (Rmult 1) d))
      as (r & Er & Sr & Wr & Nr); [simpl; congruence|].
    rewrite Er. f_equal.
    apply tensor_ext; [congruence|assumption|assumption|].
    intros i Hi. rewrite Sr in Hi. rewrite Nr by exact Hi.
    rewrite tmap_nth by (auto; congruence).
    rewrite Nd by congruence. lra.
  - destruct (@tmap2_same_shape Rplus unconditional_latent (tmap (Rmult 0) d))
      as (r & Er & Sr & Wr & Nr); [simpl; congruence|].
    rewrite Er. f_equal.
    apply tensor_ext; [congruence|assumption|assumption|].
    intros i Hi. rewrite Sr in Hi. rewrite Nr by exact Hi.
    rewrite tmap_nth by (auto; congruence). lra.
Qed.

Lemma guidance_scale_one_and_zero_witness :
  guidance (Tensor [2%nat] [1; 2]) (Tensor [2%nat] [3; 4]) 1
  = Ok (Tensor [2%nat] [3; 4]).
Proof.
  destruct (@guidance_scale_one_and_zero (Tensor [2%nat] [1; 2])
              (Tensor [2%nat] [3; 4]) eq_refl eq_refl eq_refl) as [H _].
  exact H.
Defined.

(** A cumulative alpha above 1 or below 0 is a [ValueError] of
    [math.sqrt]; nothing is returned for it. *)
Theorem get_x_prev_domain_error (x e_t : tensor R) (a_t a_prev : R) :
  1 < a_t \/ a_t < 0 ->
  shape e_t = shape x ->
  _get_x_prev x e_t a_t a_prev = Raise ValueError.
Proof.
  intros Ha Hs. unfold _get_x_prev, pred_x0, math_sqrt.
  destruct Ha as [Ha|Ha].
  - destruct (Rle_dec 0 (1 - a_t)); [lra|reflexivity].
  - destruct (Rle_dec 0 (1 - a_t)); [|reflexivity]. cbn [rbind].
    destruct (@tmap2_same_shape Rminus x (tmap (Rmult (sqrt (1 - a_t))) e_t))
      as (num & En & _); [simpl; congruence|].
    unfold tsub. rewrite En. cbn [rbind].
    destruct (Rle_dec 0 a_t); [lra|reflexivity].
Qed.

Lemma get_x_prev_domain_error_witness :
  (1 < 2 \/ 2 < 0)
  /\ _get_x_prev (Tensor [1%nat] [1]) (Tensor [1%nat] [3]) 2 1
     = Raise ValueError.
Proof.
  assert (H : 1 < 2 \/ 2 < 0) by (left; lra).
  split; [exact H|].
  exact (@get_x_prev_domain_error (Tensor [1%nat] [1]) (Tensor [1%nat] [3])
           2 1 H eq_refl).
Defined.

End StepExtras.

(** ** The intercepted forward pass, further *)

Section AttentionExtras.
Local Open Scope nat_scope.

Ltac run_resolve :=
  unfold resolve_weights, refine_weights, use_last_weights, bind, get, lift,
    when, put, ret.

(** [use_last] needs a cached map with as many elements as the weights
    have: otherwise, in particular before anything was saved, the pass ends
    in an invalid-argument error of [tf.reshape] and the control variables
    stay as they are. *)
Theorem use_last_without_matching_cache_raises (c : Control) (W : tensor R) :
  cross_attn_mode c = "use_last"%string ->
  List.length (data (attn_map c)) <> size (shape W) ->
  resolve_weights W c = (Raise InvalidArgumentError, c).
Proof.
  intros Hmode Hsize. run_resolve. rewrite Hmode. cbn [String.eqb Ascii.eqb Bool.eqb andb].
  unfold tf_reshape. cbn [rbind].
  destruct (Nat.eqb_spec (size (shape W)) (List.length (data (attn_map c))))
    as [E|_]; [congruence|reflexivity].
Qed.

Lemma use_last_without_matching_cache_raises_witness :
  let c := assign_cross_attn_mode "use_last" initial_control in
  let W := Tensor [1; 2] [(1 / 4)%R; (3 / 4)%R] in
  List.length (data (attn_map c)) <> size (shape W)
  /\ resolve_weights W c = (Raise InvalidArgumentError, c).
Proof.
  intros c W.
  assert (H : List.length (data (attn_map c)) <> size (shape W))
    by (simpl; discriminate).
  split; [exact H|].
  exact (@use_last_without_matching_cache_raises c W eq_refl H).
Defined.

(** In the mode [edit] with an empty mask, as before
    [put_mask_diffusion_model] ran, the refinement is skipped: the softmax
    weights are used, re-weighted if that is switched on. *)
Theorem edit_with_empty_mask_passes_through (c : Control) (W : tensor R) :
  cross_attn_mode c = "edit"%string -> tf_size (prompt_edit_mask c) = 0 ->
  resolve_weights W c = (reweight_weights c W, c).
Proof.
  intros Hmode Hmask. run_resolve. rewrite Hmode, Hmask. reflexivity.
Qed.

Lemma edit_with_empty_mask_passes_through_witness :
  let c := assign_cross_attn_mode "edit" initial_control in
  let W := Tensor [1; 2] [(1 / 4)%R; (3 / 4)%R] in
  tf_size (prompt_edit_mask c) = 0 /\ resolve_weights W c = (Ok W, c).
Proof.
  intros c W. split; [reflexivity|].
  exact (@edit_with_empty_mask_passes_through c W eq_refl eq_refl).
Defined.

(** The modes [injection], [unconditional] and the initial empty mode do
    the same: the softmax weights go on, re-weighted if that is switched
    on, and no control variable changes. *)
Theorem injection_is_unconditional (c : Control) (W : tensor R) :
  cross_attn_mode c = "injection"%string
  \/ cross_attn_mode c = "unconditional"%string
  \/ cross_attn_mode c = ""%string ->
  resolve_weights W c = (reweight_weights c W, c).
Proof.
  intros [H|[H|H]]; run_resolve; rewrite H; reflexivity.
Qed.

Lemma injection_is_unconditional_witness :
  let W := Tensor [1; 2] [(1 / 4)%R; (3 / 4)%R] in
  resolve_weights W (assign_cross_attn_mode "injection" initial_control)
  = (Ok W, assign_cross_attn_mode "injection" initial_control).
Proof.
  intros W.
  exact (@injection_is_unconditional
           (assign_cross_attn_mode "injection" initial_control) W
           (or_introl eq_refl)).
Defined.

(** The mode [save] stores the weights as they are before the
    re-weighting: the cached map is the softmax map even when the pass
    itself goes on with re-weighted weights, or fails in re-weighting. *)
Theorem save_stores_weights_before_reweighting (c : Control) (W : tensor R) :
  cross_attn_mode c = "save"%string ->
  resolve_weights W c = (reweight_weights c W, assign_attn_map W c).
Proof.
  intros Hmode. run_resolve. rewrite Hmode. reflexivity.
Qed.

Lemma save_stores_weights_before_reweighting_witness :
  let c :=
    mkControl "save" true empty_tensor empty_tensor empty_tensor
      (Tensor [2] [2%R; 0%R]) in
  let W := Tensor [1; 2] [(1 / 4)%R; (3 / 4)%R] in
  attn_map (snd (resolve_weights W c)) = W.
Proof.
  intros c W.
  rewrite (@save_stores_weights_before_reweighting c W eq_refl).
  reflexivity.
Defined.

(** Re-weighting multiplies every column of the weights with the weight of
    its token: [weights[r, j] * prompt_weights[j]]. *)
Theorem reweighting_scales_token_columns (c : Control) (W : tensor R)
  (lead : list nat) (n : nat) (pw : list R) :
  use_prompt_weights c = true ->
  prompt_weights c = Tensor [n] pw -> List.length pw = n -> n <> 0 ->
  shape W = lead ++ [n] -> wf W ->
  exists E,
    reweight_weights c W = Ok E /\ shape E = shape W /\ wf E
    /\ forall r j, r < size lead -> j < n ->
         nth (r * n + j) (data E) 0%R
         = (nth (r * n + j) (data W) 0 * nth j pw 0)%R.
Proof.
  intros Huse Hpw Hl Hn HW HwfW.
  destruct (@tmap2_last_axis Rmult W (prompt_weights c) lead n HW)
    as (E & EE & SE & WE & NE); [now rewrite Hpw|].
  exists E. split.
  { unfold reweight_weights, tf_size. rewrite Huse, Hpw.
    cbn [shape size fold_right]. rewrite Nat.mul_1_r.
    destruct (Nat.eqb_spec n 0) as [E0|_]; [contradiction|].
    cbn [andb negb]. rewrite <- Hpw. unfold tmul. rewrite EE. cbn [rbind].
    rewrite <- SE. now apply tf_reshape_same. }
  split; [exact SE|]. split; [exact WE|].
  intros r j Hr Hj.
  assert (Hi : r * n + j < size (shape W)).
  { rewrite HW, size_app. simpl. nia. }
  rewrite NE by exact Hi. rewrite Hpw. cbn [data].
  rewrite Nat.add_comm, Nat.Div0.mod_add, Nat.mod_small by exact Hj.
  reflexivity.
Qed.

Lemma reweighting_scales_token_columns_witness :
  let c :=
    mkControl "injection" true empty_tensor empty_tensor empty_tensor
      (Tensor [2] [2%R; 0%R]) in
  let W := Tensor [1; 2] [(1 / 4)%R; (3 / 4)%R] in
  exists E,
    reweight_weights c W = Ok E
    /\ nth 1 (data E) 0%R = (3 / 4 * 0)%R.
Proof.
  intros c W.
  destruct (@reweighting_scales_token_columns c W [1] 2 [2%R; 0%R] eq_refl
              eq_refl eq_refl (Nat.neq_succ_0 1) eq_refl eq_refl)
    as (E & HE & _ & _ & HN).
  exists E. split; [exact HE|].
  exact (HN 0 1 (Nat.lt_0_succ 0) (Nat.lt_succ_diag_r 1)).
Defined.

End AttentionExtras.

(** ** Names of the layers *)

Section NameExtras.

Lemma prefix_app (p s t : string) :
  String.prefix p s = true -> String.prefix p (s ++ t) = true.
Proof.
  revert s. induction p as [|a p IH]; intros s H.
  - now destruct (s ++ t)%string.
  - destruct s as [|b s]; [discriminate|].
    simpl in *. destruct (ascii_dec a b); [now apply IH|discriminate].
Qed.

Lemma contains_app (p s t : string) :
  contains p s = true -> contains p (s ++ t) = true.
Proof.
  induction s as [|b s IH]; intros H.
  - simpl in H. rewrite orb_false_r in H.
    destruct p; [destruct t; reflexivity|discriminate].
  - cbn [contains] in H. apply orb_prop in H.
    change (String b s ++ t)%string with (String b (s ++ t)).
    cbn [contains]. apply orb_true_intro.
    destruct H as [H|H].
    + left. apply (@prefix_app p (String b s) t H).
    + right. now apply IH.
Qed.

Lemma split_on_cons (sep : ascii) (s : string) :
  exists w ws, split_on sep s = w :: ws.
Proof.
  induction s as [|c s (w & ws & IH)]; simpl.
  - eauto.
  - destruct (Ascii.eqb c sep); [eauto|]. rewrite IH. eauto.
Qed.

(** [(s + sep + w).split(sep) == s.split(sep) + w.split(sep)] *)
Lemma split_on_app (sep : ascii) (s w : string) :
  split_on sep (s ++ String sep w) = (split_on sep s ++ split_on sep w)%list.
Proof.
  induction s as [|c s IH].
  - simpl. now rewrite Ascii.eqb_refl.
  - change (String c s ++ String sep w)%string
      with (String c (s ++ String sep w)).
    cbn [split_on]. destruct (Ascii.eqb c sep).
    + now rewrite IH.
    + rewrite IH. destruct (split_on_cons sep s) as (a & l & E).
      rewrite E. reflexivity.
Qed.

Lemma last_app_cons (A : Type) (l : list A) (x : A) (l' : list A) (d : A) :
  last (l ++ x :: l') d = last (x :: l') d.
Proof.
  induction l as [|y l IH]; [reflexivity|].
  change ((y :: l) ++ x :: l')%list with (y :: (l ++ x :: l'))%list.
  destruct (l ++ x :: l')%list eqn:E; [now destruct l|].
  exact IH.
Qed.

Lemma last_component_suffix (s : string) :
  last_component (s ++ "_attn1") = "attn1"%string
  /\ last_component (s ++ "_attn2") = "attn2"%string.
Proof.
  unfold last_component. split.
  - change (s ++ "_attn1")%string with (s ++ String "_" "attn1")%string.
    rewrite split_on_app. apply (@last_app_cons string).
  - change (s ++ "_attn2")%string with (s ++ String "_" "attn2")%string.
    rewrite split_on_app. apply (@last_app_cons string).
Qed.

Lemma rename_from_suffixes (k : nat) (m : Model) :
  map (fun sm => last_component (name sm))
    (filter is_cross_attention (P2PUtils.rename_from k m))
  = map (fun k => if Nat.odd k then "attn2"%string else "attn1"%string)
      (seq k (List.length (filter is_cross_attention m))).
Proof.
  revert k. induction m as [|sm m IH]; intros k.
  - reflexivity.
  - cbn [P2PUtils.rename_from filter].
    destruct (is_cross_attention sm) eqn:Ec.
    + assert (Ha : forall suffix ov ctl,
                is_cross_attention (mkSubmodule (name sm ++ suffix) ov ctl)
                = true).
      { intros. unfold is_cross_attention. cbn [name].
        apply (@contains_app "cross_attention" (name sm) suffix Ec). }
      destruct (last_component_suffix (name sm)) as [L1 L2].
      destruct (Nat.odd k) eqn:Ek; cbn [negb andb filter];
        rewrite Ha; cbn [map List.length seq name];
        rewrite ?L1, ?L2, Ek, Nat.add_1_r, IH; reflexivity.
    + rewrite !andb_false_r. cbn [filter]. rewrite Ec. apply IH.
Qed.

(** [rename_cross_attention_layers] gives the attention layers, in their
    order, the suffixes [attn1], [attn2], [attn1], ...: the first layer of
    every pair is the self-attention, the second the cross-attention. *)
Theorem rename_alternates_suffixes (m : Model) :
  map (fun sm => last_component (name sm))
    (filter is_cross_attention
       (snd (P2PUtils.rename_cross_attention_layers m)))
  = map (fun k => if Nat.odd k then "attn2"%string else "attn1"%string)
      (seq 0 (List.length (filter is_cross_attention m))).
Proof. apply rename_from_suffixes. Qed.

End NameExtras.

(** ** The prepared model *)

Section ModelExtras.
Import StableDiffusion.
Local Open Scope nat_scope.

Lemma for_each_total (g : Submodule -> Submodule)
  (body : Submodule -> result Submodule) (m : Model) :
  (forall sm, body sm = Ok (g sm)) -> for_each body m = (Ok tt, map g m).
Proof.
  intros H. induction m as [|sm m IH]; simpl.
  - reflexivity.
  - now rewrite H, IH.
Qed.

Lemma rename_from_prepared (k : nat) (m : Model) :
  Forall
    (fun sm =>
       is_cross_attention sm = true ->
       last_component (name sm) = "attn1"%string
       \/ last_component (name sm) = "attn2"%string)
    (P2PUtils.rename_from k m)
  /\ List.length (P2PUtils.rename_from k m) = List.length m.
Proof.
  revert k. induction m as [|sm m IH]; intros k.
  - split; [constructor|reflexivity].
  - cbn [P2PUtils.rename_from].
    destruct (last_component_suffix (name sm)) as [L1 L2].
    destruct (IH (k + 1)) as [F1 N1]. destruct (IH k) as [F0 N0].
    destruct (is_cross_attention sm) eqn:Ec, (Nat.odd k);
      cbn [negb andb]; (split; [constructor; [|assumption]|simpl; congruence]);
      cbn [name]; intros H; auto; congruence.
Qed.

(** The first read of the property [diffusion_model_prompt_to_prompt]
    prepares the diffusion model, whatever its submodules are called: every
    attention layer gets a name ending in [attn1] or [attn2], the
    intercepted [call] and the initial control variables; no network runs;
    a second read changes nothing. *)
Theorem first_read_prepares_the_model (p : Pipeline) :
  prompt_to_prompt_ready p = false ->
  exists p',
    diffusion_model_prompt_to_prompt p = (Ok tt, p')
    /\ prompt_to_prompt_ready p' = true
    /\ prepared (submodules p') = true
    /\ Forall
         (fun sm =>
            is_cross_attention sm = true ->
            call_overwritten sm = true /\ control sm = Some initial_control)
         (submodules p')
    /\ List.length (submodules p') = List.length (submodules p)
    /\ invocations p' = invocations p
    /\ diffusion_model_prompt_to_prompt p' = (Ok tt, p').
Proof.
  intros Hr.
  set (g2 := fun sm =>
               if is_cross_attention sm
               then mkSubmodule (name sm) true (control sm) else sm).
  set (g3 := fun sm =>
               if is_cross_attention sm
               then mkSubmodule (name sm) (call_overwritten sm)
                      (Some initial_control)
               else sm).
  assert (E2 : forall m, P2PUtils.overwrite_forward_call m
                         = (Ok tt, map g2 m)).
  { intros m. apply for_each_total. intros sm. unfold g2.
    now destruct (is_cross_attention sm). }
  assert (E3 : forall m, P2PUtils.set_initial_tf_variables m
                         = (Ok tt, map g3 m)).
  { intros m. apply for_each_total. intros sm. unfold g3.
    now destruct (is_cross_attention sm). }
  exists (mkPipeline (img_height p) (img_width p)
            (map g3 (map g2 (P2PUtils.rename_from 0 (submodules p))))
            true (invocations p) (draws p)).
  assert (Erun : diffusion_model_prompt_to_prompt p
                 = (Ok tt,
                    mkPipeline (img_height p) (img_width p)
                      (map g3 (map g2 (P2PUtils.rename_from 0 (submodules p))))
                      true (invocations p) (draws p))).
  { unfold diffusion_model_prompt_to_prompt, bind, get, put, on_model,
      P2PUtils.rename_cross_attention_layers.
    rewrite Hr. cbn [submodules with_submodules img_height img_width
                       prompt_to_prompt_ready invocations draws].
    rewrite E2. cbn [submodules with_submodules img_height img_width
                       prompt_to_prompt_ready invocations draws].
    rewrite E3. reflexivity. }
  split; [exact Erun|]. split; [reflexivity|].
  cbn [submodules invocations].
  destruct (rename_from_prepared 0 (submodules p)) as [F N].
  assert (Hall : Forall
            (fun sm =>
               is_cross_attention sm = true ->
               (call_overwritten sm = true
                /\ control sm = Some initial_control)
               /\ (last_component (name sm) = "attn1"%string
                   \/ last_component (name sm) = "attn2"%string))
            (map g3 (map g2 (P2PUtils.rename_from 0 (submodules p))))).
  { rewrite map_map. apply Forall_map. eapply Forall_impl; [|exact F].
    intros sm Hsm. unfold g3, g2.
    destruct (is_cross_attention sm) eqn:Ec.
    - unfold is_cross_attention in *. cbn [name]. rewrite Ec.
      cbn [name call_overwritten control]. intros _. auto.
    - rewrite Ec. congruence. }
  split.
  { unfold prepared. apply forallb_forall. intros sm Hin.
    rewrite Forall_forall in Hall. specialize (Hall sm Hin).
    unfold prepared_submodule.
    destruct (is_cross_attention sm); [|reflexivity].
    destruct (Hall eq_refl) as [[_ Hc] Hl]. rewrite Hc. cbn [implb is_some andb].
    destruct Hl as [-> | ->]; reflexivity. }
  split.
  { eapply Forall_impl; [|exact Hall]. intros sm H Hc. now apply H. }
  split; [now rewrite !length_map|].
  split; reflexivity.
Qed.

Lemma first_read_prepares_the_model_witness :
  prompt_to_prompt_ready (Demo.fresh 8 8) = false
  /\ exists p',
       diffusion_model_prompt_to_prompt (Demo.fresh 8 8) = (Ok tt, p')
       /\ prepared (submodules p') = true.
Proof.
  split; [reflexivity|].
  destruct (@first_read_prepares_the_model (Demo.fresh 8 8) eq_refl)
    as (p' & E & _ & P & _).
  exists p'. split; assumption.
Defined.

Lemma prepared_attn_is_cross (sm : Submodule) :
  prepared_submodule sm = true ->
  is_attention_with "attn" sm = is_cross_attention sm.
Proof.
  unfold prepared_submodule, is_attention_with. intros H.
  destruct (is_cross_attention sm); [|reflexivity].
  cbn [implb] in H. apply andb_prop in H. destruct H as [_ H].
  apply orb_prop in H.
  destruct H as [H|H]; apply String.eqb_eq in H; rewrite H; reflexivity.
Qed.

(** With its default suffix [attn], [update_cross_attention_mode] sets the
    mode of every attention layer of a prepared model, self- and
    cross-attention alike, and changes nothing else. *)
Theorem update_mode_reaches_every_layer (mode : string) (m : Model) :
  prepared m = true ->
  P2PUtils.update_cross_attention_mode mode "attn" m
  = (Ok tt,
     map (fun sm =>
            if is_cross_attention sm
            then mkSubmodule (name sm) (call_overwritten sm)
                   (option_map (assign_cross_attn_mode mode) (control sm))
            else sm) m).
Proof.
  intros Hp. unfold P2PUtils.update_cross_attention_mode.
  rewrite (@for_each_assign (is_attention_with "attn")
             (assign_cross_attn_mode mode) m Hp
             (fun sm H => @is_attention_with_cross "attn" sm H)).
  f_equal. apply map_ext_in. intros sm Hin.
  unfold prepared in Hp. rewrite forallb_forall in Hp.
  unfold apply_where. now rewrite (@prepared_attn_is_cross sm (Hp sm Hin)).
Qed.

Lemma update_mode_reaches_every_layer_witness :
  let m := submodules (snd (diffusion_model_prompt_to_prompt (Demo.fresh 8 8))) in
  prepared m = true
  /\ map mode_of (snd (P2PUtils.update_cross_attention_mode "save" "attn" m))
     = [None; Some "save"%string; Some "save"%string; None].
Proof.
  intros m. split; [reflexivity|].
  rewrite (@update_mode_reaches_every_layer "save" m eq_refl).
  reflexivity.
Defined.

(** On a model whose layers have no control variables (before
    [set_initial_tf_variables]) an update that selects some layer ends in
    an [AttributeError] and leaves the model as it was. *)
Theorem update_without_variables_raises (mode suffix : string) (m : Model) :
  Forall (fun sm => control sm = None) m ->
  existsb (is_attention_with suffix) m = true ->
  P2PUtils.update_cross_attention_mode mode suffix m
  = (Raise AttributeError, m).
Proof.
  unfold P2PUtils.update_cross_attention_mode.
  induction 1 as [|sm m Hsm _ IH]; intros Hex; [discriminate|].
  cbn [existsb] in Hex. cbn [for_each].
  destruct (is_attention_with suffix sm) eqn:E.
  - unfold assign. rewrite Hsm. reflexivity.
  - cbn [orb] in Hex. rewrite (IH Hex). reflexivity.
Qed.

Lemma update_without_variables_raises_witness :
  let m := submodules (Demo.fresh 8 8) in
  Forall (fun sm => control sm = None) m
  /\ existsb (is_attention_with "attention") m = true
  /\ P2PUtils.update_cross_attention_mode "save" "attention" m
     = (Raise AttributeError, m).
Proof.
  intros m.
  assert (H : Forall (fun sm => control sm = None) m)
    by (repeat constructor).
  split; [exact H|]. split; [reflexivity|].
  exact (@update_without_variables_raises "save" "attention" m H eq_refl).
Defined.

End ModelExtras.

(** ** Forward passes of the network *)

Section NetworkExtras.
Import StableDiffusion.
Context {collab : Collaborators}.
Local Open Scope nat_scope.

Lemma same_but_cache_refl (sm : Submodule) : same_but_cache sm sm.
Proof.
  unfold same_but_cache. repeat split.
  destruct (control sm); auto.
Qed.

Lemma same_but_cache_trans (a b c : Submodule) :
  same_but_cache a b -> same_but_cache b c -> same_but_cache a c.
Proof.
  unfold same_but_cache. intros (N1 & O1 & C1) (N2 & O2 & C2).
  split; [congruence|]. split; [congruence|].
  destruct (control a) as [ca|], (control b) as [cb|], (control c) as [cc|];
    try contradiction; auto.
  destruct C1 as [E1|(S1 & w1 & E1)], C2 as [E2|(S2 & w2 & E2)]; subst.
  - now left.
  - right. split; [exact S2|]. now exists w2.
  - right. split; [exact S1|]. now exists w1.
  - right. split; [exact S1|]. now exists w2.
Qed.

Lemma Forall2_same_but_cache_refl (m : Model) : Forall2 same_but_cache m m.
Proof. induction m; constructor; auto using same_but_cache_refl. Qed.

Lemma Forall2_same_but_cache_trans (a b c : Model) :
  Forall2 same_but_cache a b -> Forall2 same_but_cache b c ->
  Forall2 same_but_cache a c.
Proof.
  intros H. revert c. induction H as [|x y a b Hxy _ IH]; intros c Hc.
  - inversion Hc. constructor.
  - inversion Hc as [|y' z b' c' Hyz Hbc]; subst. constructor.
    + exact (@same_but_cache_trans x y z Hxy Hyz).
    + now apply IH.
Qed.

(** The control variables after a forward pass of a layer. *)
Lemma resolve_weights_state (c : Control) (W : tensor R) :
  snd (resolve_weights W c) = c
  \/ (cross_attn_mode c = "save"%string
      /\ exists w, snd (resolve_weights W c) = assign_attn_map w c).
Proof.
  unfold resolve_weights, bind, get, lift, when, put, ret.
  destruct (refine_weights c W) as [w1|e]; [|now left].
  destruct (use_last_weights c w1) as [w2|e]; [|now left].
  destruct (cross_attn_mode c =? "save")%string eqn:E.
  - apply String.eqb_eq in E. right. split; [exact E|]. now exists w2.
  - now left.
Qed.

Lemma call_attention_edit_state (i : nat) (inputs : attn_input)
  (c : Control) :
  snd (call_attention_edit i inputs c) = c
  \/ (cross_attn_mode c = "save"%string
      /\ exists w, snd (call_attention_edit i inputs c)
                   = assign_attn_map w c).
Proof.
  unfold call_attention_edit, bind, lift.
  destruct (raw_weights i inputs) as [W|e]; [|now left].
  pose proof (resolve_weights_state c W) as H.
  destruct (resolve_weights W c) as [[w|e] c']; exact H.
Qed.

Lemma nth_error_split_at (A : Type) (l : list A) (i : nat) (x : A) :
  nth_error l i = Some x -> l = (firstn i l ++ x :: skipn (S i) l)%list.
Proof.
  revert i. induction l as [|y l IH]; intros [|i] H; try discriminate.
  - now injection H as ->.
  - simpl. f_equal. now apply IH.
Qed.

Lemma Forall2_replace_at (l : Model) (i : nat) (x y : Submodule) :
  nth_error l i = Some x -> same_but_cache x y ->
  Forall2 same_but_cache l (firstn i l ++ y :: skipn (S i) l)%list.
Proof.
  revert i. induction l as [|z l IH]; intros [|i] H Hxy; try discriminate.
  - injection H as ->. simpl. constructor; [exact Hxy|].
    apply Forall2_same_but_cache_refl.
  - simpl. constructor; [apply same_but_cache_refl|]. now apply IH.
Qed.

Lemma call_layer_frame (i : nat) (inputs : attn_input) (m : Model) :
  Forall2 same_but_cache m (snd (call_layer i inputs m)).
Proof.
  unfold call_layer.
  destruct (nth_error m i) as [sm|] eqn:E;
    [|apply Forall2_same_but_cache_refl].
  destruct (call_overwritten sm) eqn:Eo;
    [|apply Forall2_same_but_cache_refl].
  destruct (control sm) as [c|] eqn:Ec;
    [|apply Forall2_same_but_cache_refl].
  pose proof (call_attention_edit_state i inputs c) as H.
  destruct (call_attention_edit i inputs c) as [r c']. cbn [snd] in *.
  apply (@Forall2_replace_at m i sm _ E).
  unfold same_but_cache. cbn [name call_overwritten control].
  rewrite Ec, Eo. auto.
Qed.

(** A forward pass of the network, completed or not, changes no name, no
    mode, no mask, no index and no prompt weight: all that can differ
    afterwards is the cached map of layers that are in the mode [save]. *)
Theorem forward_pass_changes_caches_only (A : Type) (net : Net A)
  (m : Model) :
  Forall2 same_but_cache m (snd (run_net net m)).
Proof.
  revert m. induction net as [a|i inputs k IH]; intros m.
  - apply Forall2_same_but_cache_refl.
  - cbn [run_net]. unfold bind.
    pose proof (call_layer_frame i inputs m) as H.
    destruct (call_layer i inputs m) as [[out|e] m1]; cbn [snd] in *.
    + exact (@Forall2_same_but_cache_trans m m1 _ H (IH out m1)).
    + exact H.
Qed.

(** A layer with the intercepted [call] and the initial control variables,
    as after a completed [prompt_to_prompt], hands its softmax weights
    unchanged to the output computation and keeps the model as it is. *)
Theorem reset_layer_uses_its_softmax_weights (i : nat) (inputs : attn_input)
  (m : Model) (sm : Submodule) :
  nth_error m i = Some sm -> call_overwritten sm = true ->
  control sm = Some initial_control ->
  call_layer i inputs m
  = (rbind (raw_weights i inputs) (fun W => attend i W inputs), m).
Proof.
  intros E Eo Ec. unfold call_layer. rewrite E, Eo, Ec.
  unfold call_attention_edit, bind, lift.
  assert (Em : (firstn i m
                ++ mkSubmodule (name sm) true (Some initial_control)
                :: skipn (S i) m)%list = m).
  { symmetry. rewrite <- Ec, <- Eo.
    replace (mkSubmodule (name sm) (call_overwritten sm) (control sm))
      with sm by now destruct sm.
    now apply nth_error_split_at. }
  destruct (raw_weights i inputs) as [W|e]; cbn [rbind].
  - rewrite resolve_weights_initial. now rewrite Em.
  - now rewrite Em.
Qed.

End NetworkExtras.

Section NetworkInstances.
Import StableDiffusion.
Import Demo.

Lemma reset_layer_uses_its_softmax_weights_witness :
  let m := [mkSubmodule "cross_attention_attn1" true (Some initial_control)] in
  let W := Tensor [1%nat; 2%nat] [(1 / 4)%R; (3 / 4)%R] in
  nth_error m 0 = Some (mkSubmodule "cross_attention_attn1" true
                          (Some initial_control))
  /\ call_layer 0 (W, None) m = (Ok W, m).
Proof.
  intros m W. split; [reflexivity|].
  exact (@reset_layer_uses_its_softmax_weights collaborators 0%nat (W, None)
           m (mkSubmodule "cross_attention_attn1" true (Some initial_control))
           eq_refl eq_refl eq_refl).
Defined.

End NetworkInstances.

(** ** Prompts *)

Section PromptExtras.
Import StableDiffusion Prompts.
Context {collab : Collaborators}.
Local Open Scope nat_scope.

(** A prompt of at most 77 tokens reaches the text encoder as one row of
    exactly 77 token ids: the tokens of the prompt followed by the
    end-of-text id 49407; the text encoder runs once and nothing else of
    the pipeline changes. *)
Theorem encode_text_pads_to_77 (prompt : string) (p : Pipeline) :
  List.length (tokenizer_encode prompt) <= 77 ->
  exists phrase,
    encode_text prompt p
    = (text_encoder_predict (Tensor [1; 77] phrase) _get_pos_ids,
       mkPipeline (img_height p) (img_width p) (submodules p)
         (prompt_to_prompt_ready p) (TextEncoderRun :: invocations p)
         (draws p))
    /\ List.length phrase = 77
    /\ firstn (List.length (tokenizer_encode prompt)) phrase
       = tokenizer_encode prompt
    /\ Forall (fun t => t = 49407%Z)
         (skipn (List.length (tokenizer_encode prompt)) phrase).
Proof.
  intros H.
  exists (tokenizer_encode prompt
          ++ repeat 49407%Z (77 - List.length (tokenizer_encode prompt)))%list.
  split; [now apply encode_text_fits|].
  split; [rewrite length_app, repeat_length; lia|].
  split.
  - rewrite firstn_app, Nat.sub_diag, firstn_all. cbn [firstn].
    apply app_nil_r.
  - rewrite skipn_app, Nat.sub_diag, skipn_all. cbn [skipn app].
    apply Forall_forall. intros t Ht. now apply repeat_spec in Ht.
Qed.

(** [tokenize_prompt] returns the very row of token ids that
    [encode_text] gives to the text encoder, and raises the same
    [ValueError] for a prompt of more than 77 tokens. *)
Theorem encode_text_encodes_tokenize_prompt (prompt : string)
  (p : Pipeline) :
  encode_text prompt p
  = match tokenize_prompt prompt with
    | Ok phrase =>
        (text_encoder_predict phrase _get_pos_ids,
         mkPipeline (img_height p) (img_width p) (submodules p)
           (prompt_to_prompt_ready p) (TextEncoderRun :: invocations p)
           (draws p))
    | Raise e => (Raise e, p)
    end.
Proof.
  unfold encode_text, tokenize_prompt.
  destruct (MAX_PROMPT_LENGTH <? List.length (tokenizer_encode prompt));
    reflexivity.
Qed.

(** A prompt of more than 77 tokens is refused by [text_to_image] and by
    [inpaint] with a [ValueError] before any network runs, and by
    [prompt_to_prompt] (arguments otherwise valid) before the diffusion
    model is prepared or touched. *)
Theorem too_long_prompt_is_refused_first (prompt : string) (p : Pipeline) :
  77 < List.length (tokenizer_encode prompt) ->
  (forall negative_prompt batch_size num_steps scale seed,
     text_to_image prompt negative_prompt batch_size num_steps scale seed p
     = (Raise ValueError, p))
  /\ (forall image mask negative_prompt num_resamples batch_size num_steps
        scale seed,
        inpaint prompt image mask negative_prompt num_resamples batch_size
          num_steps scale None seed p
        = (Raise ValueError, p))
  /\ (forall prompt_edit method self_attn_steps cross_attn_steps weights
        negative_prompt num_steps scale batch_size seed,
        method = "replace"%string \/ method = "refine"%string ->
        prompt_to_prompt prompt prompt_edit method self_attn_steps
          cross_attn_steps weights negative_prompt num_steps scale
          batch_size None seed p
        = (Raise ValueError, p)).
Proof.
  intros H.
  pose proof (@encode_text_too_long collab prompt p H) as E.
  split; [|split].
  - intros. unfold text_to_image, bind. now rewrite E.
  - intros. unfold inpaint, bind. cbn [is_some andb]. now rewrite E.
  - intros prompt_edit method s c w np n scale b seed Hm.
    unfold prompt_to_prompt, bind.
    destruct Hm as [-> | ->]; cbn; now rewrite E.
Qed.

End PromptExtras.

Section PromptInstances.
Import StableDiffusion Prompts.
Import Demo.

Lemma encode_text_pads_to_77_witness :
  (List.length (tokenizer_encode "a bowl of apples") <= 77)%nat
  /\ exists phrase,
       fst (encode_text "a bowl of apples" (fresh 8 8))
       = text_encoder_predict (Tensor [1%nat; 77%nat] phrase) _get_pos_ids
       /\ List.length phrase = 77%nat.
Proof.
  assert (H : (List.length (tokenizer_encode "a bowl of apples") <= 77)%nat)
    by (simpl; lia).
  split; [exact H|].
  destruct (@encode_text_pads_to_77 collaborators "a bowl of apples"
              (fresh 8 8) H) as (phrase & E & L & _).
  exists phrase. split; [now rewrite E|exact L].
Defined.

End PromptInstances.

Section LongPromptInstances.
Import StableDiffusion.

Lemma too_long_prompt_is_refused_first_witness :
  (77 < List.length
          (@tokenizer_encode LetterDemo.collaborators LetterDemo.long_prompt))%nat
  /\ @text_to_image LetterDemo.collaborators LetterDemo.long_prompt None 1 50
       (15 / 2)%R (Some 7%Z) (Demo.fresh 8 8)
     = (Raise ValueError, Demo.fresh 8 8).
Proof.
  assert (H : (77 < List.length
                      (@tokenizer_encode LetterDemo.collaborators
                         LetterDemo.long_prompt))%nat)
    by (vm_compute; lia).
  split; [exact H|].
  destruct (@too_long_prompt_is_refused_first LetterDemo.collaborators
              LetterDemo.long_prompt (Demo.fresh 8 8) H) as (E & _).
  exact (E None 1%nat 50%Z (15 / 2)%R (Some 7%Z)).
Defined.

End LongPromptInstances.

(** ** Outside the edit windows *)

Section OutsideWindows.
Import StableDiffusion.
Local Open Scope nat_scope.

Ltac settle_layer H1 H2 :=
  unfold apply_where;
  repeat progress
    (rewrite ?is_attention_with_mk, ?H1, ?H2;
     cbn [name control call_overwritten option_map]);
  reflexivity.

Lemma edit_modes_of_cross_outside (method : string) (s c : Q * Q)
  (hw : bool) (t : Q) (sm : Submodule) :
  prepared_submodule sm = true -> is_attention_with "attn2" sm = true ->
  in_window c t = false ->
  mode_of (edit_modes_of method s c hw t sm) = Some "injection"%string
  /\ usage_of (edit_modes_of method s c hw t sm) = usage_of sm.
Proof.
  intros Hp H2 Hin.
  pose proof (@is_attention_with_cross "attn2" sm H2) as Hc.
  pose proof (@prepared_submodule_suffix sm Hp Hc) as H1.
  rewrite H2 in H1. simpl in H1.
  destruct (@prepared_submodule_control sm Hp Hc) as [ctl Ectl].
  destruct sm as [nm ov ctl']. simpl in Ectl. subst ctl'.
  rewrite is_attention_with_mk in H1, H2.
  unfold edit_modes_of, mode_of, usage_of. rewrite Hin.
  split; destruct (in_window s t); settle_layer H1 H2.
Qed.

Lemma edit_modes_of_self_outside (method : string) (s c : Q * Q)
  (hw : bool) (t : Q) (sm : Submodule) :
  prepared_submodule sm = true -> is_attention_with "attn1" sm = true ->
  in_window s t = false ->
  mode_of (edit_modes_of method s c hw t sm) = Some "injection"%string.
Proof.
  intros Hp H1 Hin.
  pose proof (@is_attention_with_cross "attn1" sm H1) as Hc.
  pose proof (@prepared_submodule_suffix sm Hp Hc) as H2.
  rewrite H1 in H2. apply (f_equal negb) in H2.
  rewrite negb_involutive in H2. simpl in H2. symmetry in H2.
  destruct (@prepared_submodule_control sm Hp Hc) as [ctl Ectl].
  destruct sm as [nm ov ctl']. simpl in Ectl. subst ctl'.
  rewrite is_attention_with_mk in H1, H2.
  unfold edit_modes_of, mode_of. rewrite Hin.
  destruct (method =? "replace")%string, (method =? "refine")%string,
    ((method =? "reweight")%string || hw), (in_window c t);
    settle_layer H1 H2.
Qed.

(** Outside the cross-attention window the [attn2] layers are set to
    [injection] whatever the method is, and their [use_prompt_weights]
    stays as it was; outside the self-attention window the [attn1] layers
    are set to [injection]: the edited prompt's own attention is used. *)
Theorem outside_the_windows_is_injection (p : Pipeline) (method : string)
  (self_attn_steps cross_attn_steps : Q * Q) (has_weights : bool)
  (t_scale : Q) :
  prompt_to_prompt_ready p = true -> prepared (submodules p) = true ->
  exists p',
    set_edit_modes method self_attn_steps cross_attn_steps has_weights
      t_scale p = (Ok tt, p')
    /\ invocations p' = invocations p
    /\ (in_window cross_attn_steps t_scale = false ->
        Forall2
          (fun sm sm' =>
             is_attention_with "attn2" sm = true ->
             mode_of sm' = Some "injection"%string
             /\ usage_of sm' = usage_of sm)
          (submodules p) (submodules p'))
    /\ (in_window self_attn_steps t_scale = false ->
        Forall
          (fun sm =>
             is_attention_with "attn1" sm = true ->
             mode_of sm = Some "injection"%string)
          (submodules p')).
Proof.
  intros Hr Hp.
  eexists. split; [now apply set_edit_modes_prepared|].
  cbn [submodules with_submodules invocations].
  split; [reflexivity|].
  unfold prepared in Hp. rewrite forallb_forall in Hp.
  split; intros Hout.
  - assert (G : forall m : Model,
              (forall sm, In sm m -> prepared_submodule sm = true) ->
              Forall2
                (fun sm sm' =>
                   is_attention_with "attn2" sm = true ->
                   mode_of sm' = Some "injection"%string
                   /\ usage_of sm' = usage_of sm)
                m (map (edit_modes_of method self_attn_steps cross_attn_steps
                          has_weights t_scale) m)).
    { induction m as [|sm m IH]; intros Hm; [constructor|].
      cbn [map]. constructor.
      - intros H2. apply edit_modes_of_cross_outside; auto.
        apply Hm. now left.
      - apply IH. intros x Hx. apply Hm. now right. }
    now apply G.
  - apply Forall_map, Forall_forall. intros sm Hsm Hsuffix.
    rewrite (@is_attention_with_name "attn1" sm _
               (@edit_modes_of_name method self_attn_steps cross_attn_steps
                  has_weights t_scale sm)) in Hsuffix.
    apply edit_modes_of_self_outside; auto.
Qed.

Lemma outside_the_windows_is_injection_witness :
  let p := snd (diffusion_model_prompt_to_prompt (Demo.fresh 8 8)) in
  prompt_to_prompt_ready p = true
  /\ prepared (submodules p) = true
  /\ in_window (0, 1 # 10)%Q (t_scale_of 401) = false
  /\ exists p',
       set_edit_modes "replace" (0, 1 # 10)%Q (0, 2 # 10)%Q false
         (t_scale_of 401) p = (Ok tt, p')
       /\ Forall
            (fun sm =>
               is_attention_with "attn1" sm = true ->
               mode_of sm = Some "injection"%string)
            (submodules p').
Proof.
  intros p.
  assert (Hr : prompt_to_prompt_ready p = true) by reflexivity.
  assert (Hp : prepared (submodules p) = true) by reflexivity.
  assert (Ho : in_window (0, 1 # 10)%Q (t_scale_of 401) = false)
    by reflexivity.
  split; [exact Hr|]. split; [exact Hp|]. split; [exact Ho|].
  destruct (@outside_the_windows_is_injection p "replace" (0, 1 # 10)%Q
              (0, 2 # 10)%Q false (t_scale_of 401) Hr Hp)
    as (p' & E & _ & _ & Hself).
  exists p'. split; [exact E|exact (Hself Ho)].
Defined.

End OutsideWindows.

(** ** The alphas of a run *)

Section AlphaExtras.
Import Schedule.
Local Open Scope nat_scope.

Lemma rmap_ok (A B : Type) (f : A -> result B) (l : list A) (ys : list B) :
  rmap f l = Ok ys -> Forall2 (fun x y => f x = Ok y) l ys.
Proof.
  revert ys. induction l as [|x l IH]; intros ys H; simpl in H.
  - injection H as <-. constructor.
  - destruct (f x) as [y|e] eqn:E; [|discriminate]. cbn [rbind] in H.
    destruct (rmap f l) as [ys'|e]; [|discriminate]. cbn [rbind] in H.
    injection H as <-. constructor; [exact E|]. now apply IH.
Qed.

Lemma py_index_nonneg (A : Type) (l : list A) (t : Z) (a : A) :
  (0 <= t)%Z -> py_index l t = Ok a -> nth_error l (Z.to_nat t) = Some a.
Proof.
  intros Ht. unfold py_index.
  destruct (t <? 0)%Z eqn:E; [apply Z.ltb_lt in E; lia|]. rewrite E.
  destruct (nth_error l (Z.to_nat t)); [|discriminate].
  intros H. now injection H as ->.
Qed.

Lemma nth_error_removelast (A : Type) (l : list A) (i : nat) :
  S i < List.length l -> nth_error (removelast l) i = nth_error l i.
Proof.
  revert i. induction l as [|x l IH]; intros i H; [simpl in H; lia|].
  destruct l as [|y l]; [simpl in H; lia|].
  change (removelast (x :: y :: l)) with (x :: removelast (y :: l)).
  destruct i as [|i]; [reflexivity|].
  cbn [nth_error]. apply IH. simpl in *. lia.
Qed.

(** What [_get_initial_alphas] returns for timesteps that are not
    negative: [alphas[i]] is the table at [timesteps[i]], and
    [alphas_prev] is [alphas] moved by one place behind a leading 1.0, so
    that the [a_prev] of a step is the [a_t] of the step done after it. *)
Theorem initial_alphas_are_shifted (table : list R) (ts : list Z)
  (alphas alphas_prev : list R) :
  Forall (fun t => (0 <= t)%Z) ts ->
  _get_initial_alphas table ts = Ok (alphas, alphas_prev) ->
  List.length alphas = List.length ts
  /\ (forall i t, nth_error ts i = Some t ->
        nth_error alphas i = nth_error table (Z.to_nat t))
  /\ nth_error alphas_prev 0 = Some 1%R
  /\ (forall i, S i < List.length ts ->
        nth_error alphas_prev (S i) = nth_error alphas i).
Proof.
  intros Hts H. unfold _get_initial_alphas in H.
  destruct (rmap (py_index table) ts) as [al|e] eqn:E; [|discriminate].
  cbn [rbind] in H. injection H as <- <-.
  apply rmap_ok in E.
  assert (L : List.length al = List.length ts)
    by (symmetry; exact (Forall2_length E)).
  split; [exact L|]. split.
  - clear L. induction E as [|t a ts al Hta _ IH]; intros i t' Hi.
    + destruct i; discriminate.
    + inversion Hts as [|? ? Ht Hts']; subst.
      destruct i as [|i]; cbn [nth_error] in *.
      * injection Hi as <-. symmetry. now apply py_index_nonneg.
      * now apply IH.
  - split; [reflexivity|].
    intros i Hi. cbn [nth_error]. apply nth_error_removelast. lia.
Qed.

Lemma initial_alphas_are_shifted_witness :
  let table := [(9 / 10)%R; (8 / 10)%R; (7 / 10)%R; (6 / 10)%R] in
  Forall (fun t => (0 <= t)%Z) [1%Z; 3%Z]
  /\ _get_initial_alphas table [1%Z; 3%Z]
     = Ok ([(8 / 10)%R; (6 / 10)%R], [1%R; (8 / 10)%R])
  /\ nth_error [1%R; (8 / 10)%R] 1 = nth_error [(8 / 10)%R; (6 / 10)%R] 0.
Proof.
  intros table.
  assert (H : Forall (fun t => (0 <= t)%Z) [1%Z; 3%Z])
    by (repeat constructor; lia).
  assert (E : _get_initial_alphas table [1%Z; 3%Z]
              = Ok ([(8 / 10)%R; (6 / 10)%R], [1%R; (8 / 10)%R]))
    by reflexivity.
  split; [exact H|]. split; [exact E|].
  destruct (@initial_alphas_are_shifted table [1%Z; 3%Z] _ _ H E)
    as (_ & _ & _ & S).
  exact (S 0 (Nat.lt_succ_diag_r 1)).
Defined.

Lemma rmap_raises (A B : Type) (f : A -> result B) (l : list A) (x : A)
  (e : exn) :
  (forall y e', f y = Raise e' -> e' = e) -> In x l -> f x = Raise e ->
  rmap f l = Raise e.
Proof.
  intros Hall. induction l as [|y l IH]; intros Hin Hx; [contradiction|].
  simpl. destruct (f y) as [b|e'] eqn:E.
  - cbn [rbind]. destruct Hin as [->|Hin]; [congruence|].
    now rewrite (IH Hin Hx).
  - cbn [rbind]. f_equal. now apply (Hall y).
Qed.

(** A timestep at or beyond the end of the table is an [IndexError] of
    [_get_initial_alphas]: there are no alphas for a table that is too
    short. *)
Theorem initial_alphas_index_error (table : list R) (ts : list Z) (t : Z) :
  In t ts -> (Z.of_nat (List.length table) <= t)%Z ->
  _get_initial_alphas table ts = Raise IndexError.
Proof.
  intros Hin Ht. unfold _get_initial_alphas.
  rewrite (@rmap_raises Z R (py_index table) ts t IndexError); auto.
  - intros y e'. unfold py_index.
    destruct ((if (y <? 0)%Z then _ else _) <? 0)%Z;
      [intros H; now injection H|].
    destruct (nth_error _ _); [discriminate|intros H; now injection H].
  - unfold py_index.
    destruct (t <? 0)%Z eqn:E; [apply Z.ltb_lt in E; lia|]. rewrite E.
    destruct (nth_error table (Z.to_nat t)) eqn:N; [|reflexivity].
    assert (Z.to_nat t < List.length table)
      by (apply nth_error_Some; congruence).
    lia.
Qed.

Lemma initial_alphas_index_error_witness :
  In 3%Z [1%Z; 3%Z]
  /\ (Z.of_nat (List.length [(9 / 10)%R; (8 / 10)%R]) <= 3)%Z
  /\ _get_initial_alphas [(9 / 10)%R; (8 / 10)%R] [1%Z; 3%Z]
     = Raise IndexError.
Proof.
  assert (Hin : In 3%Z [1%Z; 3%Z]) by (right; left; reflexivity).
  assert (Ht : (Z.of_nat (List.length [(9 / 10)%R; (8 / 10)%R]) <= 3)%Z)
    by (simpl; lia).
  split; [exact Hin|]. split; [exact Ht|].
  exact (@initial_alphas_index_error [(9 / 10)%R; (8 / 10)%R] [1%Z; 3%Z]
           3%Z Hin Ht).
Defined.

End AlphaExtras.

(** ** Batches: [_expand_tensor] and [_get_timestep_embedding] *)

Section BatchExtras.
Import StableDiffusion.
Context {collab : Collaborators}.
Local Open Scope nat_scope.

Lemma tf_repeat_single (A : Type) (rest : list nat) (xs : list A) (n : nat) :
  List.length xs = size rest ->
  tf_repeat (Tensor (1 :: rest) xs) n
  = Ok (Tensor (n :: rest) (List.concat (repeat xs n))).
Proof.
  intros L. unfold tf_repeat. cbn [shape data seq flat_map].
  rewrite Nat.mul_1_l, app_nil_r. cbn [Nat.mul skipn].
  rewrite <- L, firstn_all. reflexivity.
Qed.



(** [_expand_tensor] on an embedding with three axes.  With a first axis
    of length 1 (one prompt) the embedding is repeated [batch_size] times
    along that axis.  With a first axis that is longer, and no axis of
    length 1, it is returned as it is, whatever [batch_size] is: that the
    two agree is not looked at. *)
Theorem expand_tensor_three_axes (b s d batch_size : nat) (xs : list R) :
  s <> 1 -> d <> 1 -> List.length xs = size [b; s; d] ->
  (b = 1 ->
   _expand_tensor (Tensor [b; s; d] xs) batch_size
   = Ok (Tensor [batch_size; s; d] (List.concat (repeat xs batch_size))))
  /\ (b <> 1 ->
      _expand_tensor (Tensor [b; s; d] xs) batch_size
      = Ok (Tensor [b; s; d] xs)).
Proof.
  intros Hs Hd L.
  apply Nat.eqb_neq in Hs. apply Nat.eqb_neq in Hd.
  split; intros Hb.
  - subst b. unfold _expand_tensor, tf_squeeze, rank.
    cbn [shape data filter Nat.eqb negb]. rewrite Hs, Hd.
    cbn [negb List.length Nat.eqb]. unfold expand_dims_first.
    cbn [shape data]. apply tf_repeat_single.
    rewrite L. cbn [size fold_right]. lia.
  - apply Nat.eqb_neq in Hb.
    unfold _expand_tensor, tf_squeeze, rank.
    cbn [shape data filter]. rewrite Hb, Hs, Hd. reflexivity.
Qed.

Lemma expand_tensor_three_axes_witness :
  _expand_tensor (Tensor [1; 2; 3] [1; 2; 3; 4; 5; 6]%R) 2
  = Ok (Tensor [2; 2; 3] [1; 2; 3; 4; 5; 6; 1; 2; 3; 4; 5; 6]%R)
  /\ _expand_tensor (Tensor [2; 2; 3] (repeat 0%R 12)) 5
     = Ok (Tensor [2; 2; 3] (repeat 0%R 12)).
Proof.
  split.
  - exact (proj1 (@expand_tensor_three_axes 1 2 3 2 [1; 2; 3; 4; 5; 6]%R
                    (fun H => Nat.neq_succ_diag_l 1 H)
                    ltac:(discriminate) eq_refl) eq_refl).
  - exact (proj2 (@expand_tensor_three_axes 2 2 3 5 (repeat 0%R 12)
                    (fun H => Nat.neq_succ_diag_l 1 H)
                    ltac:(discriminate) eq_refl)
             (fun H => Nat.neq_succ_diag_l 1 H)).
Defined.



End BatchExtras.

(** ** The state after a step of [prompt_to_prompt] *)

Section StepStateExtras.
Import StableDiffusion.
Context {collab : Collaborators}.
Local Open Scope string_scope.

Lemma usage_after_update (use : bool) (p p' : Pipeline) :
  on_prompt_to_prompt_model (P2PUtils.update_attention_weights_usage use) p
  = (Ok tt, p') ->
  Forall (fun sm => is_attention_with "attn2" sm = true ->
                    usage_of sm = Some use) (submodules p').
Proof.
  intros H. unfold on_prompt_to_prompt_model in H.
  apply bind_ok_inv in H. destruct H as (_ & p1 & _ & H).
  unfold on_model in H.
  destruct (P2PUtils.update_attention_weights_usage use (submodules p1))
    as [r m] eqn:E.
  injection H as -> <-. cbn [with_submodules submodules].
  unfold P2PUtils.update_attention_weights_usage in E.
  apply for_each_ok in E.
  induction E as [|a b l l' Hab _ IH]; constructor; [|exact IH].
  intros Hb. destruct (is_attention_with "attn2" a) eqn:Ca.
  - unfold assign in Hab. destruct (control a) as [c|]; [|discriminate].
    injection Hab as <-. reflexivity.
  - injection Hab as <-. congruence.
Qed.

(** When [attn_edit_weights] is not empty, a step of [prompt_to_prompt]
    that completes leaves [use_prompt_weights] off in every [attn2] layer,
    whatever the method and the windows are: the unconditional and the
    saving pass of the next step are not reweighted. *)
Theorem completed_step_switches_prompt_weights_off (method : string)
  (self_attn_steps cross_attn_steps : Q * Q)
  (unconditional_context conditional_context conditional_context_edit
   : tensor R) (scale : R) (batch_size : nat) (alphas alphas_prev : list R)
  (index : nat) (timestep : Z) (latent latent' : tensor R)
  (p p' : Pipeline) :
  prompt_to_prompt_step method self_attn_steps cross_attn_steps true
    unconditional_context conditional_context conditional_context_edit
    scale batch_size alphas alphas_prev index timestep latent p
  = (Ok latent', p') ->
  Forall (fun sm => is_attention_with "attn2" sm = true ->
                    usage_of sm = Some false) (submodules p').
Proof.
  intros H. unfold prompt_to_prompt_step in H.
  repeat (let a := fresh "a" in
          let s := fresh "s" in
          let E := fresh "E" in
          apply bind_ok_inv in H; destruct H as (a & s & E & H)).
  unfold lift in H. injection H as _ <-.
  repeat match goal with
         | E : lift _ _ = (Ok _, _) |- _ =>
             unfold lift in E; injection E as _ <-
         end.
  match goal with
  | E : when true _ _ = (Ok ?u, _) |- _ =>
      destruct u; unfold when in E; now apply usage_after_update in E
  end.
Qed.

End StepStateExtras.

Section StepStateInstances.
Import StableDiffusion Demo.
Local Open Scope string_scope.
Local Open Scope R_scope.

Lemma step_with_weights_completes :
  exists latent' p',
    prompt_to_prompt_step "replace" (0, 0)%Q (0, 0)%Q true
      (zeros [1; 2; 3]%nat) (zeros [1; 2; 3]%nat) (zeros [1; 2; 3]%nat)
      (15 / 2) 1 [1 / 2] [1] 0 1 (zeros [1; 1; 1; 4]%nat) (fresh 8 8)
    = (Ok latent', p').
Proof.
  do 2 eexists.
  cbv -[Rplus Rmult Rminus Rdiv Rinv Ropp sqrt exp cos sin ln IZR INR
        Int_part Rmin Rmax math_sqrt Rle_dec].
  repeat (match goal with
          | |- context [math_sqrt ?x] => rewrite (@math_sqrt_ok x) by lra
          end;
          cbv -[Rplus Rmult Rminus Rdiv Rinv Ropp sqrt exp cos sin ln IZR
                INR Int_part Rmin Rmax math_sqrt Rle_dec]).
  reflexivity.
Qed.

Lemma completed_step_switches_prompt_weights_off_witness :
  exists latent' p',
    prompt_to_prompt_step "replace" (0, 0)%Q (0, 0)%Q true
      (zeros [1; 2; 3]%nat) (zeros [1; 2; 3]%nat) (zeros [1; 2; 3]%nat)
      (15 / 2) 1 [1 / 2] [1] 0 1 (zeros [1; 1; 1; 4]%nat) (fresh 8 8)
    = (Ok latent', p')
    /\ Forall (fun sm => is_attention_with "attn2" sm = true ->
                         usage_of sm = Some false) (submodules p').
Proof.
  destruct step_with_weights_completes as (latent' & p' & H).
  exists latent', p'. split; [exact H|].
  exact (@completed_step_switches_prompt_weights_off collaborators "replace"
           (0, 0)%Q (0, 0)%Q (zeros [1; 2; 3]%nat) (zeros [1; 2; 3]%nat)
           (zeros [1; 2; 3]%nat) (15 / 2) 1%nat [1 / 2] [1] 0%nat 1%Z
           (zeros [1; 1; 1; 4]%nat) latent' (fresh 8 8) p' H).
Defined.

End StepStateInstances.

(** ** Random draws of [inpaint] *)

Section InpaintExtras.
Import StableDiffusion.
Context {collab : Collaborators}.

Lemma draws_nothing_lift (A : Type) (r : result A) : draws_nothing (lift r).
Proof. intros p. reflexivity. Qed.

Lemma draws_nothing_ret (A : Type) (a : A) :
  draws_nothing (ret (S := Pipeline) a).
Proof. intros p. reflexivity. Qed.

Lemma draws_nothing_bind (A B : Type) (m : M Pipeline A)
  (k : A -> M Pipeline B) :
  draws_nothing m -> (forall a, draws_nothing (k a)) ->
  draws_nothing (bind m k).
Proof.
  intros Hm Hk p. unfold bind. specialize (Hm p).
  destruct (m p) as [[a|e] p1]; simpl in Hm.
  - now rewrite (Hk a p1).
  - exact Hm.
Qed.

Lemma draws_nothing_diffusion_predict (latent t_emb context : tensor R) :
  draws_nothing (diffusion_predict latent t_emb context).
Proof.
  unfold diffusion_predict.
  apply draws_nothing_bind; [intros p; reflexivity|]. intros _.
  apply draws_nothing_bind; [|intros r; apply draws_nothing_lift].
  intros p. unfold on_model.
  now destruct (run_net (unet latent t_emb context) (submodules p)).
Qed.

(** A pass of the resampling loop of [inpaint] at a timestep that is not
    above 1 (the last one of a run) asks nothing of the random generator,
    whether it completes or raises, and hands back [latent_prev] as it got
    it: the noise is 0.0 there and nothing is resampled, whatever
    [num_resamples] is. *)
Theorem inpaint_last_timestep_draws_nothing
  (known_x0 mask unconditional_context context t_emb : tensor R)
  (scale : R) (seed : option Z) (num_resamples : nat) (timestep : Z)
  (a_t a_prev : R) (resample_index : nat) (latent latent_prev : tensor R)
  (p : Pipeline) :
  (timestep <= 1)%Z ->
  let out :=
    inpaint_resample known_x0 mask unconditional_context context t_emb
      scale seed num_resamples timestep a_t a_prev resample_index
      (latent, latent_prev) p in
  draws (snd out) = draws p
  /\ forall l lp, fst out = Ok (l, lp) -> lp = latent_prev.
Proof.
  intros Ht. cbv zeta.
  assert (E : (1 <? timestep)%Z = false) by (apply Z.ltb_ge; exact Ht).
  unfold inpaint_resample. rewrite E, andb_false_r. split.
  - revert p.
    repeat first
      [ apply draws_nothing_diffusion_predict
      | apply draws_nothing_lift
      | apply draws_nothing_ret
      | apply draws_nothing_bind; [|intros ?] ].
  - intros l lp H.
    match type of H with
    | fst (?m p) = _ => destruct (m p) as [r p'] eqn:R
    end.
    cbn [fst] in H. subst r.
    repeat (let a := fresh "a" in
            let s := fresh "s" in
            let E := fresh "E" in
            apply bind_ok_inv in R; destruct R as (a & s & E & R)).
    unfold ret in R. now injection R as _ <- _.
Qed.

End InpaintExtras.

Section InpaintInstances.
Import StableDiffusion Demo.
Local Open Scope R_scope.

Lemma inpaint_last_timestep_draws_nothing_witness :
  let out :=
    inpaint_resample (zeros [1; 1; 1; 4]%nat) (zeros [1; 1; 1; 1]%nat)
      (zeros [1; 2; 3]%nat) (zeros [1; 2; 3]%nat) (zeros [1; 320]%nat)
      (15 / 2) None 3 1 (1 / 2) 1 0
      (zeros [1; 1; 1; 4]%nat, zeros [1; 1; 1; 4]%nat) (fresh 8 8) in
  (1 <= 1)%Z
  /\ draws (snd out) = draws (fresh 8 8)
  /\ forall l lp, fst out = Ok (l, lp) -> lp = zeros [1; 1; 1; 4]%nat.
Proof.
  intros out. assert (H : (1 <= 1)%Z) by lia.
  split; [exact H|].
  exact (@inpaint_last_timestep_draws_nothing collaborators
           (zeros [1; 1; 1; 4]%nat) (zeros [1; 1; 1; 1]%nat)
           (zeros [1; 2; 3]%nat) (zeros [1; 2; 3]%nat) (zeros [1; 320]%nat)
           (15 / 2) None 3%nat 1%Z (1 / 2) 1 0%nat
           (zeros [1; 1; 1; 4]%nat) (zeros [1; 1; 1; 4]%nat) (fresh 8 8) H).
Defined.

End InpaintInstances.
